(** * St. Veronica Foundation: the JSON dispatch and notification pipeline

    A shallow embedding of [static/js/st_veronica_foundation.js]: the
    values the script receives, the part of the document it reads and
    writes, its response cache and the order of its observable effects.
    Every function below carries the name of the JavaScript function it
    embeds.

    What the browser and jQuery do is modelled as follows.
    - The document is a forest of elements; a jQuery selection is the list
      of the elements a predicate selects, in document order, and is looked
      up again whenever it is used.  Selector strings are kept parsed.
    - Markup that the script injects ([.html(content)], the text of an
      error message) is stored as given and not parsed into elements.
    - The offset the layout reports for an element is an attribute of it.
    - [ajaxCache] is a finite map; keys a JavaScript object inherits from
      its prototype are not considered.
    - Effects the user or other scripts can observe are appended to a log:
      requests, calls of [showNotification], navigation, animations, the
      two custom events.  A callback that runs after a fade or a timer is
      logged as pending when the fade or timer starts.  Console output is
      left out, and listeners of the custom events are taken to do nothing.
    - [JSON.parse], the reduced-motion preference and the presence of the
      Bootstrap toast component are parameters of the page. *)

From stdpp Require Import gmap strings list pretty.

#[local] Open Scope string_scope.
#[local] Open Scope Z_scope.
#[local] Set Warnings "-register-all".

(** ** JavaScript values

    Response bodies are strings (HTML) or parsed JSON.  Numbers only matter
    through their truthiness, so integers stand for them. *)

Inductive jsval : Type :=
| VUndef
| VNull
| VBool (b : bool)
| VNum (n : Z)
| VStr (s : string)
| VArr (xs : list jsval)
| VObj (props : list (string * jsval)).

(** [if (v)], [!v], [v || d] *)
Definition truthy (v : jsval) : bool :=
  match v with
  | VUndef | VNull => false
  | VBool b => b
  | VNum n => negb (n =? 0)
  | VStr s => negb (String.eqb s "")
  | VArr _ | VObj _ => true
  end.

Definition or_else (v d : jsval) : jsval := if truthy v then v else d.

Inductive exn : Type :=
| TypeError (what : string)
| SyntaxError (what : string).

Inductive result (A : Type) : Type :=
| Ok (a : A)
| Throw (e : exn).
Arguments Ok {A} a.
Arguments Throw {A} e.

Definition is_ok {A} (r : result A) : bool :=
  match r with Ok _ => true | Throw _ => false end.

Fixpoint assoc {A} (k : string) (ps : list (string * A)) : option A :=
  match ps with
  | [] => None
  | (k', v) :: ps' => if String.eqb k k' then Some v else assoc k ps'
  end.

(** [v.k] for the property names the script reads.  Reading a property of
    [null] or [undefined] throws; a missing property is [undefined]. *)
Definition prop (v : jsval) (k : string) : result jsval :=
  match v with
  | VUndef | VNull => Throw (TypeError k)
  | VObj ps => Ok (default VUndef (assoc k ps))
  | VArr xs => Ok (if String.eqb k "length" then VNum (Z.of_nat (length xs)) else VUndef)
  | VStr s => Ok (if String.eqb k "length" then VNum (Z.of_nat (String.length s)) else VUndef)
  | VBool _ | VNum _ => Ok VUndef
  end.

(** [v.forEach(...)]: only arrays have the method; calling it on anything
    else is a TypeError.  The result is the list the callback runs over. *)
Definition forEach_items (v : jsval) : result (list jsval) :=
  match v with
  | VArr xs => Ok xs
  | _ => Throw (TypeError "forEach")
  end.

Fixpoint chars_from (i : nat) (s : string) : list (string * jsval) :=
  match s with
  | EmptyString => []
  | String c s' => (pretty i, VStr (String c EmptyString)) :: chars_from (S i) s'
  end.

(** The own enumerable properties of a value, in the order [Object.keys]
    lists them, each with the value [errors[field]] reads back. *)
Definition own_props (v : jsval) : list (string * jsval) :=
  match v with
  | VObj ps => ps
  | VArr xs => imap (fun i x => (pretty i, x)) xs
  | VStr s => chars_from 0 s
  | _ => []
  end.

(** ** The document

    An element carries its tag, its attributes (id, name, ...), its class
    list and the vertical offset the layout reports for it.  Markup the
    script injects without looking inside is kept as it is given. *)

Record attrs : Type := {
  tag : string;
  attributes : gmap string string;
  classes : gset string;
  top : Z
}.

Inductive html : Type :=
| HValue (v : jsval)
| HNoResults
| HResults (items : list (jsval * jsval * jsval)).

Inductive node : Type :=
| Elem (a : attrs) (kids : list node)
| Text (v : jsval)
| Html (h : html).

Definition addClass (c : string) (a : attrs) : attrs :=
  {| tag := tag a; attributes := attributes a;
     classes := {[c]} ∪ classes a; top := top a |}.

Definition removeClass (c : string) (a : attrs) : attrs :=
  {| tag := tag a; attributes := attributes a;
     classes := classes a ∖ {[c]}; top := top a |}.

Definition hasClass (c : string) (a : attrs) : bool :=
  bool_decide (c ∈ classes a).

Definition hasId (i : string) (a : attrs) : bool :=
  bool_decide (attributes a !! "id" = Some i).

Definition hasName (f : string) (a : attrs) : bool :=
  bool_decide (attributes a !! "name" = Some f).

Definition hasTag (t : string) (a : attrs) : bool := String.eqb (tag a) t.

(** The selectors a caller can pass in [options]. *)
Inductive selector : Type :=
| SClass (c : string)
| SId (i : string)
| STag (t : string)
| STagAttr (t attr : string).

Definition matches (s : selector) (a : attrs) : bool :=
  match s with
  | SClass c => hasClass c a
  | SId i => hasId i a
  | STag t => hasTag t a
  | STagAttr t attr => hasTag t a && bool_decide (is_Some (attributes a !! attr))
  end.

(** [$(sel)] with [sel] possibly [undefined] selects nothing. *)
Definition matches_opt (s : option selector) (a : attrs) : bool :=
  match s with Some s => matches s a | None => false end.

(** [`${sel} ...`]: an [undefined] selector is spelled into the template as
    the tag name [undefined]. *)
Definition matches_tpl (s : option selector) (a : attrs) : bool :=
  match s with Some s => matches s a | None => hasTag "undefined" a end.

(** All elements, in document order. *)
Fixpoint elems_node (n : node) : list attrs :=
  match n with
  | Elem a kids => a :: flat_map elems_node kids
  | Text _ | Html _ => []
  end.

Definition elems (l : list node) : list attrs := flat_map elems_node l.

(** [$(sel)] *)
Definition select (p : attrs -> bool) (l : list node) : list attrs :=
  List.filter p (elems l).

(** Apply [f] to the attributes of every element: [$(sel).addClass(c)] is
    [amap (fun a => if sel a then addClass c a else a)]. *)
Fixpoint amap_node (f : attrs -> attrs) (n : node) : node :=
  match n with
  | Elem a kids => Elem (f a) (map (amap_node f) kids)
  | Text _ | Html _ => n
  end.

Definition amap (f : attrs -> attrs) (l : list node) : list node :=
  map (amap_node f) l.

Definition on (p : attrs -> bool) (f : attrs -> attrs) (a : attrs) : attrs :=
  if p a then f a else a.

(** [$(sel).remove()] *)
Fixpoint remove_node (p : attrs -> bool) (n : node) : list node :=
  match n with
  | Elem a kids => if p a then [] else [Elem a (flat_map (remove_node p) kids)]
  | Text _ | Html _ => [n]
  end.

Definition remove (p : attrs -> bool) (l : list node) : list node :=
  flat_map (remove_node p) l.

(** [$(sel).html(h)], [$(sel).text(v)]: the content of every selected
    element is replaced. *)
Fixpoint set_content_node (p : attrs -> bool) (new : list node) (n : node) : node :=
  match n with
  | Elem a kids =>
      if p a then Elem a new else Elem a (map (set_content_node p new) kids)
  | Text _ | Html _ => n
  end.

Definition set_content (p : attrs -> bool) (new : list node) (l : list node)
  : list node :=
  map (set_content_node p new) l.

(** [$(sel).append(n)] *)
Fixpoint append_node (p : attrs -> bool) (new : node) (n : node) : node :=
  match n with
  | Elem a kids =>
      Elem a (map (append_node p new) kids ++ (if p a then [new] else []))
  | Text _ | Html _ => n
  end.

Definition append (p : attrs -> bool) (new : node) (l : list node) : list node :=
  map (append_node p new) l.

(** [$('#id')] is the first element with that id; [f] rewrites it. *)
Fixpoint update_first_node (p : attrs -> bool) (f : node -> node) (n : node)
  : option node :=
  match n with
  | Elem a kids =>
      if p a then Some (f n)
      else
        Elem a <$>
          ((fix go (l : list node) : option (list node) :=
              match l with
              | [] => None
              | k :: l' =>
                  match update_first_node p f k with
                  | Some k' => Some (k' :: l')
                  | None => cons k <$> go l'
                  end
              end) kids)
  | Text _ | Html _ => None
  end.

Fixpoint update_first (p : attrs -> bool) (f : node -> node) (l : list node)
  : option (list node) :=
  match l with
  | [] => None
  | k :: l' =>
      match update_first_node p f k with
      | Some k' => Some (k' :: l')
      | None => cons k <$> update_first p f l'
      end
  end.

(** [$toast.find(sel).text(v)]: the descendants of one element. *)
Definition find_set_content (p : attrs -> bool) (new : list node) (n : node) : node :=
  match n with
  | Elem a kids => Elem a (set_content p new kids)
  | Text _ | Html _ => n
  end.

(** The elements strictly below an element selected by [form]:
    [$(form).find('*')], or the candidates of [`${form} [name=...]`]. *)
Fixpoint below_node (form : attrs -> bool) (inside : bool) (n : node) : list attrs :=
  match n with
  | Elem a kids =>
      (if inside then [a] else [])
        ++ flat_map (below_node form (inside || form a)) kids
  | Text _ | Html _ => []
  end.

Definition below (form : attrs -> bool) (l : list node) : list attrs :=
  flat_map (below_node form false) l.

(** [$field.addClass('is-invalid'); $field.after(err)] for the elements
    [field] selects below [form]. *)
Fixpoint mark_node (form field : attrs -> bool) (err : node) (inside : bool)
  (n : node) : list node :=
  match n with
  | Elem a kids =>
      let kids' := flat_map (mark_node form field err (inside || form a)) kids in
      if inside && field a
      then [Elem (addClass "is-invalid" a) kids'; err]
      else [Elem a kids']
  | Text _ | Html _ => [n]
  end.

Definition mark (form field : attrs -> bool) (err : node) (l : list node)
  : list node :=
  flat_map (mark_node form field err false) l.

(** ** The page

    The browser globals the script consults, the document, the response
    cache [ajaxCache] and the observable effects in the order they happen. *)

Record XHR : Type := { status : Z; responseText : string }.

Record environment : Type := {
  prefersReducedMotion : bool;      (* matchMedia('(prefers-reduced-motion: reduce)').matches *)
  bootstrap_Toast : bool;           (* typeof bootstrap !== 'undefined' && bootstrap.Toast *)
  JSON_parse : string -> option jsval  (* None: JSON.parse throws *)
}.

(** Work a callback does later: after a fade completes or a timer fires. *)
Inductive task : Type :=
| TNavigate (url : jsval)
| TSetHtml (target : attrs -> bool) (h : html)
| TInitScrollAnimations.

Inductive event : Type :=
| Ajax (url method dataType : string)     (* $.ajax sends the request *)
| Notify (message type : jsval)           (* showNotification(message, type) *)
| ToastShow (toolkit : bool) (delay : Z)  (* toast.show() or fadeIn().delay().fadeOut() *)
| Navigate (url : jsval)                  (* window.location.href = url *)
| Later (ms : Z) (t : task)               (* fade or timer started, callback pending *)
| Animate (scrollTop : Z) (ms : Z)        (* $('html, body').animate({scrollTop}, ms) *)
| FormReset (form : attrs)                (* form.reset() *)
| JsonProcessed (data : jsval)            (* trigger('stveronica.jsonProcessed') *)
| JsonRequestFailed (xhr : XHR).          (* trigger('stveronica.jsonRequestFailed') *)

Record page : Type := {
  env : environment;
  doc : list node;
  ajaxCache : gmap string jsval;
  log : list event
}.

Definition with_doc (f : list node -> list node) (st : page) : page :=
  {| env := env st; doc := f (doc st); ajaxCache := ajaxCache st; log := log st |}.

Definition emit (e : event) (st : page) : page :=
  {| env := env st; doc := doc st; ajaxCache := ajaxCache st; log := log st ++ [e] |}.

Definition emit_all (es : list event) (st : page) : page :=
  {| env := env st; doc := doc st; ajaxCache := ajaxCache st; log := log st ++ es |}.

Definition cache_put (url : string) (data : jsval) (st : page) : page :=
  {| env := env st; doc := doc st; ajaxCache := <[url := data]> (ajaxCache st);
     log := log st |}.

(** [ajaxCache[url]] *)
Definition cached (url : string) (st : page) : jsval :=
  default VUndef (ajaxCache st !! url).

(** ** Code that can throw: state and exception passing *)

Definition M (A : Type) : Type := page -> page * result A.

Definition ret {A} (a : A) : M A := fun st => (st, Ok a).

Definition bind {A B} (m : M A) (k : A -> M B) : M B :=
  fun st =>
    match m st with
    | (st', Ok a) => k a st'
    | (st', Throw e) => (st', Throw e)
    end.

Definition lift {A} (r : result A) : M A := fun st => (st, r).

Definition effect (f : page -> page) : M unit := fun st => (f st, Ok tt).

Definition when (b : bool) (m : M unit) : M unit := if b then m else ret tt.

Fixpoint for_each {A} (f : A -> M unit) (l : list A) : M unit :=
  match l with
  | [] => ret tt
  | x :: l' => bind (f x) (fun _ => for_each f l')
  end.

Fixpoint map_result {A B} (f : A -> result B) (l : list A) : result (list B) :=
  match l with
  | [] => Ok []
  | x :: l' =>
      match f x with
      | Throw e => Throw e
      | Ok y => match map_result f l' with
                | Throw e => Throw e
                | Ok ys => Ok (y :: ys)
                end
      end
  end.

Declare Scope js_scope.
Delimit Scope js_scope with js.
Notation "'let*' x ':=' m 'in' k" := (bind m (fun x => k))
  (at level 10, x name, m at level 100, k at level 200) : js_scope.
Notation "m '>>' k" := (bind m (fun _ => k))
  (at level 80, right associativity) : js_scope.
#[local] Open Scope js_scope.

(** ** Notification Emitter *)

Definition plain (t : string) (cs : gset string) : attrs :=
  {| tag := t; attributes := ∅; classes := cs; top := 0 |}.

Definition toast_attrs : attrs :=
  {| tag := "div";
     attributes := {[ "id" := "notification-toast"; "role" := "alert";
                      "aria-live" := "polite"; "aria-atomic" := "true" ]};
     classes := {[ "toast" ]};
     top := 0 |}.

Definition toastHTML : node :=
  Elem toast_attrs
    [Elem (plain "div" {[ "toast-body" ]}) [Elem (plain "span" {[ "message" ]}) []]].

(** [.text(v)] and [.html(v)] with [v] undefined are getters: nothing is
    written. *)
Definition text_of (v : jsval) (old : list node) : list node :=
  match v with VUndef => old | _ => [Text v] end.

Definition set_text_below (p : attrs -> bool) (v : jsval) (n : node) : node :=
  match v with
  | VUndef => n
  | _ => find_set_content p [Text v] n
  end.

Definition set_own_text (v : jsval) (n : node) : node :=
  match n with
  | Elem a kids => Elem a (text_of v kids)
  | Text _ | Html _ => n
  end.

Definition update_first_or_keep (p : attrs -> bool) (f : node -> node)
  (l : list node) : list node :=
  default l (update_first p f l).

(** [showNotification(message, type = 'info')].

    The statement after the text update reads
    [$toast.remove//Class('success error warning info').addClass(type);]:
    from [//] on it is a comment, so what runs is the property read
    [$toast.remove], which changes nothing. *)
Definition showNotification (message type : jsval) (st : page) : page :=
  let type := match type with VUndef => VStr "info" | _ => type end in
  let st := emit (Notify message type) st in
  let st :=
    if existsb (hasId "notification-toast") (elems (doc st)) then st
    else with_doc (append (hasTag "body") toastHTML) st in
  let st :=
    with_doc (update_first_or_keep (hasId "notification-toast")
                (set_text_below (hasClass "message") message)) st in
  emit (ToastShow (bootstrap_Toast (env st)) 3000) st.

Definition sr_announcement : node :=
  Elem {| tag := "div";
          attributes := {[ "id" := "sr-announcement"; "aria-live" := "polite" ]};
          classes := {[ "sr-only" ]};
          top := 0 |} [].

(** [announceToScreenReader(message)] *)
Definition announceToScreenReader (message : jsval) (st : page) : page :=
  let st :=
    if existsb (hasId "sr-announcement") (elems (doc st)) then st
    else with_doc (append (hasTag "body") sr_announcement) st in
  with_doc (update_first_or_keep (hasId "sr-announcement") (set_own_text message)) st.

(** [$(sel).html(h)] now, or, with motion allowed,
    [$(sel).fadeOut(300, function () { $(sel).html(h).fadeIn(300); })]:
    the callback is pending once per selected element. *)
Definition swap_html (p : attrs -> bool) (h : html) (st : page) : page :=
  if prefersReducedMotion (env st)
  then match h with
       | HValue VUndef => st
       | _ => with_doc (set_content p [Html h]) st
       end
  else emit_all (map (fun _ => Later 300 (TSetHtml p h)) (select p (doc st))) st.

(** [loadAjaxContent(content)] *)
Definition loadAjaxContent (content : jsval) (st : page) : page :=
  if existsb (hasClass "ajax-container") (elems (doc st)) then
    let st := swap_html (hasClass "ajax-container") (HValue content) st in
    let st := announceToScreenReader (VStr "Content loaded successfully") st in
    emit (Later 100 TInitScrollAnimations) st
  else st.

(** ** Response Router *)

(** What a caller passes as [options]: the jQuery settings that
    [$.extend] lets it override, and the fields the handlers read.  A
    [beforeSend] hook is any change of the page; it does not cancel the
    request. *)
Record options : Type := {
  o_url : option string;
  o_method : option string;
  o_dataType : option string;
  o_beforeSend : option (page -> page);
  handleResponse : jsval;
  responseType : jsval;
  formSelector : option selector;
  containerSelector : option selector
}.

(** [{}], and the [{element, url}] the prefetch handlers pass: none of the
    fields above is set. *)
Definition no_options : options :=
  {| o_url := None; o_method := None; o_dataType := None; o_beforeSend := None;
     handleResponse := VUndef; responseType := VUndef;
     formSelector := None; containerSelector := None |}.

(** [window.location.href = url], at once with reduced motion, otherwise in
    the completion callback of [$('.content-wrapper').fadeTo(500, 0, ...)],
    which runs once per faded element. *)
Definition redirect_to (url : jsval) (st : page) : page :=
  if prefersReducedMotion (env st) then emit (Navigate url) st
  else emit_all (map (fun _ => Later 500 (TNavigate url))
                   (select (hasClass "content-wrapper") (doc st))) st.

(** [processJsonData(data, options)] *)
Definition processJsonData (data : jsval) (options : options) : M unit :=
  let* message := lift (prop data "message") in
  when (truthy message)
    (let* success := lift (prop data "success") in
     let type := if truthy success then VStr "success" else VStr "error" in
     effect (showNotification message type)) >>
  let* redirect := lift (prop data "redirect") in
  when (truthy redirect) (effect (redirect_to redirect)) >>
  let* content := lift (prop data "content") in
  when (truthy content) (effect (loadAjaxContent content)) >>
  effect (emit (JsonProcessed data)).

Definition error_message_div (errorMessage : jsval) : node :=
  Elem (plain "div" {[ "error-message"; "text-danger" ]}) [Html (HValue errorMessage)].

(** One round of the loop over [Object.keys(errors)]. *)
Definition display_field_error (errors : list (string * jsval))
  (formSelector : option selector) (d : list node) (field : string) : list node :=
  let form := matches_tpl formSelector in
  if existsb (hasName field) (below form d)
  then mark form (hasName field)
         (error_message_div (default VUndef (assoc field errors))) d
  else d.

Definition clear_previous_errors (d : list node) : list node :=
  amap (on (hasClass "is-invalid") (removeClass "is-invalid"))
    (remove (hasClass "error-message") d).

Definition first_error (formSelector : option selector) (d : list node)
  : option attrs :=
  head (List.filter (hasClass "is-invalid") (below (matches_opt formSelector) d)).

(** [displayFormErrors(errors, formSelector)] *)
Definition displayFormErrors (errors : jsval) (formSelector : option selector)
  (st : page) : page :=
  let st := with_doc clear_previous_errors st in
  let props := own_props errors in
  let st :=
    with_doc (fun d => fold_left (display_field_error props formSelector)
                         (map fst props) d) st in
  match first_error formSelector (doc st) with
  | Some firstError =>
      if negb (prefersReducedMotion (env st))
      then emit (Animate (top firstError - 100) 500) st
      else st
  | None => st
  end.

(** [$(options.formSelector)[0].reset()]: without a selected form there is
    no [reset] to call. *)
Definition reset_form (formSelector : selector) : M unit :=
  fun st =>
    match head (select (matches formSelector) (doc st)) with
    | Some a =>
        if hasTag "form" a then (emit (FormReset a) st, Ok tt)
        else (st, Throw (TypeError "reset"))
    | None => (st, Throw (TypeError "reset"))
    end.

(** [processFormResponse(data, options)] *)
Definition processFormResponse (data : jsval) (options : options) : M unit :=
  let* form_errors := lift (prop data "form_errors") in
  when (truthy form_errors)
    (effect (displayFormErrors form_errors (formSelector options))) >>
  let* form_success := lift (prop data "form_success") in
  when (truthy form_success)
    (match formSelector options with
     | Some sel => reset_form sel
     | None => ret tt
     end >>
     effect (showNotification form_success (VStr "success"))) >>
  processJsonData data options.

Definition result_row (r : jsval) : result (jsval * jsval * jsval) :=
  match prop r "url", prop r "title", prop r "excerpt" with
  | Ok u, Ok t, Ok e => Ok (u, t, e)
  | Throw e, _, _ | _, Throw e, _ | _, _, Throw e => Throw e
  end.

(** [displaySearchResults(results, containerSelector)] *)
Definition displaySearchResults (results : jsval)
  (containerSelector : option selector) : M unit :=
  fun st =>
    let container := matches_opt containerSelector in
    if existsb container (elems (doc st)) then
      match prop results "length" with
      | Throw e => (st, Throw e)
      | Ok (VNum 0) => (with_doc (set_content container [Html HNoResults]) st, Ok tt)
      | Ok _ =>
          match forEach_items results with
          | Throw e => (st, Throw e)
          | Ok items =>
              match map_result result_row items with
              | Throw e => (st, Throw e)
              | Ok rows => (swap_html container (HResults rows) st, Ok tt)
              end
          end
      end
    else (st, Ok tt).

(** [updateSearchQueryDisplay(query)] *)
Definition updateSearchQueryDisplay (query : jsval) (st : page) : page :=
  with_doc (set_content (hasClass "search-query-display") [Text query]) st.

(** [processSearchResponse(data, options)] *)
Definition processSearchResponse (data : jsval) (options : options) : M unit :=
  let* search_results := lift (prop data "search_results") in
  when (truthy search_results)
    (displaySearchResults search_results (containerSelector options)) >>
  let* search_query := lift (prop data "search_query") in
  when (truthy search_query) (effect (updateSearchQueryDisplay search_query)) >>
  processJsonData data options.

(** The callback of [data.notifications.forEach]. *)
Definition show_entry (notification : jsval) : M unit :=
  let* message := lift (prop notification "message") in
  let* type := lift (prop notification "type") in
  effect (showNotification message (or_else type (VStr "info"))).

(** [processNotificationResponse(data, options)] *)
Definition processNotificationResponse (data : jsval) (options : options) : M unit :=
  let* notifications := lift (prop data "notifications") in
  when (truthy notifications)
    (let* entries := lift (forEach_items notifications) in
     for_each show_entry entries) >>
  processJsonData data options.

(** The [switch] of [handleJsonResponse]. *)
Definition route (data responseType : jsval) (options : options) : M unit :=
  match responseType with
  | VStr tag =>
      if String.eqb tag "form" then processFormResponse data options
      else if String.eqb tag "search" then processSearchResponse data options
      else if String.eqb tag "notification"
           then processNotificationResponse data options
      else processJsonData data options
  | _ => processJsonData data options
  end.

(** [handleJsonResponse(data, responseType = 'default', options = {})] *)
Definition handleJsonResponse (data responseType : jsval) (options : options)
  (st : page) : page * bool :=
  match route data responseType options st with
  | (st', Ok _) => (st', true)
  | (st', Throw _) =>
      (showNotification (VStr "Error processing server response") (VStr "error") st',
       false)
  end.

(** ** Request Dispatcher *)

Record ajax_settings : Type := {
  s_url : string;
  s_method : string;
  s_dataType : string;
  s_beforeSend : page -> page
}.

(** [$('.loading-spinner').addClass('show'); $body.addClass('ajax-loading');] *)
Definition show_loading (st : page) : page :=
  with_doc (fun d =>
    amap (on (hasTag "body") (addClass "ajax-loading"))
      (amap (on (hasClass "loading-spinner") (addClass "show")) d)) st.

(** [$('.loading-spinner').removeClass('show');
     $body.removeClass('ajax-loading').addClass(terminal);] *)
Definition finish_loading (terminal : string) (st : page) : page :=
  with_doc (fun d =>
    amap (on (hasTag "body")
            (fun a => addClass terminal (removeClass "ajax-loading" a)))
      (amap (on (hasClass "loading-spinner") (removeClass "show")) d)) st.

(** [$.ajax(settings)]: the [beforeSend] hook runs, then the request leaves. *)
Definition ajax (s : ajax_settings) (st : page) : page :=
  emit (Ajax (s_url s) (s_method s) (s_dataType s)) (s_beforeSend s st).

(** [$.extend({}, defaultOptions, options)] *)
Definition extend (defaults : ajax_settings) (o : options) : ajax_settings :=
  {| s_url := default (s_url defaults) (o_url o);
     s_method := default (s_method defaults) (o_method o);
     s_dataType := default (s_dataType defaults) (o_dataType o);
     s_beforeSend := default (s_beforeSend defaults) (o_beforeSend o) |}.

(** [sendJsonRequest(url, data, method, options)] up to the point where the
    request is on its way. *)
Definition sendJsonRequest (url : string) (data : jsval) (method : string)
  (options : options) (st : page) : page :=
  let defaultOptions :=
    {| s_url := url; s_method := method; s_dataType := "json";
       s_beforeSend := show_loading |} in
  ajax (extend defaultOptions options) st.

(** The [.done] callback of [sendJsonRequest]. *)
Definition sendJsonRequest_done (options : options) (data : jsval) (st : page)
  : page :=
  let st := finish_loading "ajax-success" st in
  match handleResponse options with
  | VBool false => st
  | _ => fst (handleJsonResponse data
                (or_else (responseType options) (VStr "default")) options st)
  end.

(** The message the [.fail] callback arrives at. *)
Definition errorMessage_of (xhr : XHR) (st : page) : jsval :=
  let errorMessage := VStr "Request failed" in
  if negb (String.eqb (responseText xhr) "") then
    let excerpt := VStr (String.substring 0 100 (responseText xhr) ++ "...") in
    match JSON_parse (env st) (responseText xhr) with
    | Some errorData =>
        match prop errorData "message" with
        | Ok message => or_else message errorMessage
        | Throw _ => excerpt
        end
    | None => excerpt
    end
  else errorMessage.

(** The [.fail] callback of [sendJsonRequest]. *)
Definition sendJsonRequest_fail (xhr : XHR) (st : page) : page :=
  let st := finish_loading "ajax-error" st in
  let st := showNotification (errorMessage_of xhr st) (VStr "error") st in
  emit (JsonRequestFailed xhr) st.

(** The options the submit handler passes:
    [{formSelector: $form.selector || 'form[data-json-form]', responseType:
    'form'}], where [$form.selector] of [$(this)] is empty or undefined. *)
Definition form_options : options :=
  {| o_url := None; o_method := None; o_dataType := None; o_beforeSend := None;
     handleResponse := VUndef; responseType := VStr "form";
     formSelector := Some (STagAttr "form" "data-json-form");
     containerSelector := None |}.

(** The submit handler [initFormSubmissions] binds to a JSON form:
    [action] is [$form.attr('action') || window.location.href], [method] is
    [$form.attr('method')] (empty when absent), [fields] is
    [$form.serializeArray()]. *)
Definition on_submit (action method : string) (fields : list (string * string))
  (st : page) : page :=
  let data := VObj (map (fun field => (fst field, VStr (snd field))) fields) in
  sendJsonRequest action data (if String.eqb method "" then "POST" else method)
    form_options st.

(** An element with [data-prefetch="true"]: [attr('href') || data('url')],
    [data('response-type')], [data('json-handler')] (each empty when
    absent) and whether it has class [ajax-load]. *)
Record element : Type := {
  el_url : string;
  el_response_type : string;
  el_json_handler : string;
  el_ajax_load : bool
}.

Definition str_or (s d : string) : string := if String.eqb s "" then d else s.

Definition is_json (el : element) : bool :=
  String.eqb (str_or (el_response_type el) "default") "json".

Definition prefetch_settings (el : element) : ajax_settings :=
  {| s_url := el_url el; s_method := "GET";
     s_dataType := if is_json el then "json" else "html";
     s_beforeSend := show_loading |}.

Definition json_handler (el : element) : jsval :=
  VStr (str_or (el_json_handler el) "default").

(** The elements [ajaxPrefetch()] binds its two handlers to. *)
Definition ajaxPrefetch (elements : list element) (st : page) : list element :=
  List.filter
    (fun el => negb (String.eqb (el_url el) "") && negb (truthy (cached (el_url el) st)))
    elements.

(** The [mouseenter focus] handler. *)
Definition on_mouseenter (el : element) (st : page) : page :=
  if negb (truthy (cached (el_url el) st))
  then ajax (prefetch_settings el) st
  else st.

(** Its [success] callback. *)
Definition prefetch_success (el : element) (data : jsval) (st : page) : page :=
  let st := cache_put (el_url el) data st in
  let st := finish_loading "ajax-success" st in
  if is_json el
  then fst (handleJsonResponse data (json_handler el) no_options st)
  else st.

(** Its [error] callback. *)
Definition prefetch_error (xhr : XHR) (st : page) : page :=
  let st := finish_loading "ajax-error" st in
  showNotification (VStr "Failed to preload content") (VStr "error") st.

(** The [click] handler. *)
Definition on_click (el : element) (st : page) : page :=
  if el_ajax_load el || is_json el then
    if truthy (cached (el_url el) st) then
      if is_json el
      then fst (handleJsonResponse (cached (el_url el) st) (json_handler el)
                  no_options st)
      else loadAjaxContent (cached (el_url el) st) st
    else ajax (prefetch_settings el) st
  else st.

(** Its [success] callback. *)
Definition load_success (el : element) (data : jsval) (st : page) : page :=
  let st := cache_put (el_url el) data st in
  let st := finish_loading "ajax-success" st in
  if is_json el
  then fst (handleJsonResponse data (json_handler el) no_options st)
  else loadAjaxContent data st.

(** Its [error] callback. *)
Definition load_error (xhr : XHR) (st : page) : page :=
  let st := finish_loading "ajax-error" st in
  showNotification (VStr "Failed to load content") (VStr "error") st.

(** ** Requests over time

    A request is started by a user interaction and completed later by the
    network, in any interleaving with other requests. *)

Inductive request : Type :=
| Prefetch (el : element)
| Load (el : element)
| Json (o : options).

Inductive outcome : Type :=
| Success (data : jsval)
| Failure (xhr : XHR).

(** The completion callback of a request. *)
Definition complete (r : request) (o : outcome) (st : page) : page :=
  match r, o with
  | Prefetch el, Success data => prefetch_success el data st
  | Prefetch _, Failure xhr => prefetch_error xhr st
  | Load el, Success data => load_success el data st
  | Load _, Failure xhr => load_error xhr st
  | Json opts, Success data => sendJsonRequest_done opts data st
  | Json _, Failure xhr => sendJsonRequest_fail xhr st
  end.

Definition terminal_class (o : outcome) : string :=
  match o with Success _ => "ajax-success" | Failure _ => "ajax-error" end.

Inductive action : Type :=
| MouseEnter (el : element)
| Click (el : element)
| SendJson (url : string) (data : jsval) (method : string) (o : options)
| Complete (i : nat) (o : outcome).

Record world : Type := { current : page; pending : list request }.

Definition is_request (e : event) : bool :=
  match e with Ajax _ _ _ => true | _ => false end.

Definition requests_sent (st : page) : nat :=
  length (List.filter is_request (log st)).

Definition step (w : world) (a : action) : world :=
  match a with
  | MouseEnter el =>
      {| current := on_mouseenter el (current w);
         pending := pending w
           ++ (if negb (truthy (cached (el_url el) (current w)))
               then [Prefetch el] else []) |}
  | Click el =>
      {| current := on_click el (current w);
         pending := pending w
           ++ (if (el_ajax_load el || is_json el)
                  && negb (truthy (cached (el_url el) (current w)))
               then [Load el] else []) |}
  | SendJson url data method o =>
      {| current := sendJsonRequest url data method o (current w);
         pending := pending w ++ [Json o] |}
  | Complete i o =>
      match pending w !! i with
      | Some r => {| current := complete r o (current w);
                     pending := delete i (pending w) |}
      | None => w
      end
  end.

Definition run (w : world) (actions : list action) : world :=
  fold_left step actions w.

(** ** Rendering of field errors, as the specification words it

    In one pass over the document: every element below a selected form whose
    [name] is a key of [errors] is marked invalid and is followed by one
    message element. *)




(** ** What the response handlers leave alone

    [Stable P] singles out the properties of elements that survive every
    edit the handlers make: marking and unmarking a field as invalid, and
    the elements the script creates itself. *)

Definition created : list attrs :=
  [ toast_attrs; plain "div" {[ "toast-body" ]}; plain "span" {[ "message" ]};
    {| tag := "div";
       attributes := {[ "id" := "sr-announcement"; "aria-live" := "polite" ]};
       classes := {[ "sr-only" ]};
       top := 0 |};
    plain "div" {[ "error-message"; "text-danger" ]} ].

Record Stable (P : attrs -> Prop) : Prop := {
  stable_mark : forall a, P a -> P (addClass "is-invalid" a);
  stable_unmark : forall a, P a -> P (removeClass "is-invalid" a);
  stable_created : forall a, a ∈ created -> P a
}.

(** [handled st st']: [st'] differs from [st] only by such edits of the
    document and by effects other than sending a request. *)
Record handled (st st' : page) : Prop := {
  handled_env : env st' = env st;
  handled_cache : ajaxCache st' = ajaxCache st;
  handled_log :
    exists es, log st' = (log st ++ es)%list /\ Forall (fun e => is_request e = false) es;
  handled_doc :
    forall P, Stable P -> Forall P (elems (doc st)) -> Forall P (elems (doc st'))
}.

(** Every element of a document satisfies [P]. *)
Definition all_elems (P : attrs -> Prop) (l : list node) : Prop :=
  Forall P (elems l).

(** ** The loading flag and the terminal classes, as predicates on elements *)

Definition body_has (c : string) (a : attrs) : Prop :=
  hasTag "body" a = true -> c ∈ classes a.

Definition body_lacks (c : string) (a : attrs) : Prop :=
  hasTag "body" a = true -> c ∉ classes a.

Definition spinner_shown (a : attrs) : Prop :=
  hasClass "loading-spinner" a = true -> "show" ∈ classes a.

Definition spinner_hidden (a : attrs) : Prop :=
  hasClass "loading-spinner" a = true -> "show" ∉ classes a.

(** The loading flag is set: every spinner shows and the body carries
    [ajax-loading]. *)
Definition loading (st : page) : Prop :=
  Forall (fun a => body_has "ajax-loading" a /\ spinner_shown a) (elems (doc st)).

(** The loading flag is clear. *)
Definition not_loading (st : page) : Prop :=
  Forall (fun a => body_lacks "ajax-loading" a /\ spinner_hidden a) (elems (doc st)).

(** Handlers that can throw: the page they leave behind, whether they
    return or throw. *)
Definition handledM {A} (m : M A) : Prop := forall st, handled st (fst (m st)).

(** ** Where the error messages sit *)


(** An element that is neither an error message nor marked invalid. *)
Definition unmarked (a : attrs) : Prop :=
  ("error-message" ∉ classes a) /\ ("is-invalid" ∉ classes a).




(** ** Reading the log *)

Definition nullish (v : jsval) : bool :=
  match v with VUndef | VNull => true | _ => false end.

(** [v.k] where it cannot throw. *)
Definition field (v : jsval) (k : string) : jsval :=
  match prop v k with Ok x => x | Throw _ => VUndef end.

(** The call [showNotification(notification.message, notification.type || 'info')]. *)
Definition entry_notification (notification : jsval) : event :=
  Notify (field notification "message")
    (or_else (field notification "type") (VStr "info")).

(** Navigation, begun at once or pending behind a fade. *)
Definition is_navigation (e : event) : bool :=
  match e with
  | Navigate _ | Later _ (TNavigate _) => true
  | _ => false
  end.

Definition is_notification (e : event) : bool :=
  match e with Notify _ _ => true | _ => false end.


(** ** Looking into the document *)

(** What the outermost elements selected by [p] contain. *)
Fixpoint contents_node (p : attrs -> bool) (n : node) : list (list node) :=
  match n with
  | Elem a kids => if p a then [kids] else flat_map (contents_node p) kids
  | Text _ | Html _ => []
  end.

Definition contents (p : attrs -> bool) (l : list node) : list (list node) :=
  flat_map (contents_node p) l.

(** The first element, in document order, that [p] selects: [$('#id')[0]]. *)
Fixpoint first_node_in (p : attrs -> bool) (n : node) : option node :=
  match n with
  | Elem a kids =>
      if p a then Some n
      else
        (fix go (l : list node) : option node :=
           match l with
           | [] => None
           | k :: l' =>
               match first_node_in p k with
               | Some x => Some x
               | None => go l'
               end
           end) kids
  | Text _ | Html _ => None
  end.

Fixpoint first_node (p : attrs -> bool) (l : list node) : option node :=
  match l with
  | [] => None
  | k :: l' =>
      match first_node_in p k with
      | Some x => Some x
      | None => first_node p l'
      end
  end.

(** The row [displaySearchResults] renders for one result. *)
Definition row_of (result : jsval) : jsval * jsval * jsval :=
  (field result "url", field result "title", field result "excerpt").

Definition search_options (container : selector) : options :=
  {| o_url := None; o_method := None; o_dataType := None; o_beforeSend := None;
     handleResponse := VUndef; responseType := VStr "search";
     formSelector := None; containerSelector := Some container |}.


(** ** Interactions with the script's own hooks *)

(** An interaction that leaves the [beforeSend] hook of the dispatcher in
    place: everything but a JSON request whose options bring their own. *)
Definition keeps_default_hook (a : action) : bool :=
  match a with
  | SendJson _ _ _ o =>
      match o_beforeSend o with None => true | Some _ => false end
  | MouseEnter _ | Click _ | Complete _ _ => true
  end.

(** ** debounce

    [debounce(func, wait, immediate)] returns a function with one private
    variable, [timeout]: the pending timer, if any.  A timer remembers the
    arguments of the call that set it.  [debounce_call] is a call of the
    returned function, [debounce_fire] the pending timer running [later];
    both give the new [timeout] and the invocations of [func] they make. *)

Definition debounce_call {A} (immediate : bool) (args : A) (timeout : option A)
  : option A * list A :=
  let callNow := immediate && negb (bool_decide (is_Some timeout)) in
  (Some args, if callNow then [args] else []).

Definition debounce_fire {A} (immediate : bool) (timeout : option A)
  : option A * list A :=
  match timeout with
  | Some args => (None, if negb immediate then [args] else [])
  | None => (None, [])
  end.

Inductive debounce_event (A : Type) : Type :=
| Called (args : A)
| TimerFired.
Arguments Called {A} args.
Arguments TimerFired {A}.

(** The invocations of [func], in order, over a sequence of calls and timer
    expiries. *)
Fixpoint debounce_run {A} (immediate : bool) (events : list (debounce_event A))
  (timeout : option A) : option A * list A :=
  match events with
  | [] => (timeout, [])
  | e :: events' =>
      let '(timeout', now) :=
        match e with
        | Called args => debounce_call immediate args timeout
        | TimerFired => debounce_fire immediate timeout
        end in
      let '(final, later) := debounce_run immediate events' timeout' in
      (final, (now ++ later)%list)
  end.

(** ** Scroll reveals

    [initScrollAnimations]: with reduced motion every [.fade-in] element is
    made visible at once.  Otherwise elements are revealed as they come into
    view: by the IntersectionObserver callback, or, without it, by the
    scroll handler, which reveals an element once the bottom of the window
    is more than 100 pixels below its top.  The handler goes through the
    elements that carried [.fade-in] when it was bound; the script never
    adds or removes that class, so they are the [.fade-in] elements of the
    document it runs on. *)

Definition initScrollAnimations (st : page) : page :=
  if prefersReducedMotion (env st)
  then with_doc (amap (on (hasClass "fade-in") (addClass "visible"))) st
  else st.

(** The handler the scroll fallback debounces. *)
Definition reveal_on_scroll (scrollTop windowHeight : Z) (d : list node) : list node :=
  amap (on (fun a => hasClass "fade-in" a
                     && bool_decide (top a + 100 < scrollTop + windowHeight))
          (addClass "visible")) d.

(** ** A sample page

    A body with a spinner, a content wrapper with an AJAX container, and
    two JSON forms; the second form still shows an error from an earlier
    submission. *)

Definition with_attrs (t : string) (kvs : gmap string string) (cs : gset string)
  (y : Z) : attrs :=
  {| tag := t; attributes := kvs; classes := cs; top := y |}.

Definition sample_form (id : string) (kids : list node) : node :=
  Elem (with_attrs "form" {[ "id" := id; "data-json-form" := "" ]} ∅ 0) kids.

Definition sample_input (name : string) (cs : gset string) (y : Z) : node :=
  Elem (with_attrs "input" {[ "name" := name ]} cs y) [].

Definition sample_doc : list node :=
  [ Elem (plain "body" ∅)
      [ Elem (plain "div" {[ "loading-spinner" ]}) [];
        Elem (plain "div" {[ "content-wrapper" ]})
          [ Elem (plain "div" {[ "ajax-container" ]}) [];
            sample_form "contact"
              [ sample_input "name" ∅ 400; sample_input "email" ∅ 450 ];
            sample_form "newsletter"
              [ sample_input "email" {[ "is-invalid" ]} 900;
                error_message_div (VStr "Required") ] ] ] ].

(** A landing page of three sections that fade in, 200, 900 and 1900 pixels
    down the page. *)
Definition landing_doc : list node :=
  [ Elem (plain "body" ∅)
      [ Elem (with_attrs "section" ∅ {[ "fade-in" ]} 200) [];
        Elem (with_attrs "section" ∅ {[ "fade-in" ]} 900) [];
        Elem (with_attrs "section" ∅ {[ "fade-in" ]} 1900) [];
        Elem (with_attrs "footer" ∅ ∅ 2400) [] ] ].

Definition landing_page (reduced : bool) : page :=
  {| env := {| prefersReducedMotion := reduced;
               bootstrap_Toast := true;
               JSON_parse := fun _ => None |};
     doc := landing_doc; ajaxCache := ∅; log := [] |}.

Definition quote : string := String (Ascii.ascii_of_nat 34) EmptyString.

(** [{"message":"Card declined"}] *)
Definition declined_text : string :=
  "{" +:+ quote +:+ "message" +:+ quote +:+ ":" +:+ quote +:+ "Card declined"
      +:+ quote +:+ "}".

(** A [JSON.parse] that knows the texts in the table and rejects the rest. *)
Definition parse_table (t : list (string * jsval)) (text : string) : option jsval :=
  assoc text t.

Definition sample_env (reduced : bool) : environment :=
  {| prefersReducedMotion := reduced;
     bootstrap_Toast := true;
     JSON_parse :=
       parse_table [ (declined_text, VObj [("message", VStr "Card declined")]);
                     ("null", VNull); ("{}", VObj []) ] |}.

Definition sample_page (reduced : bool) : page :=
  {| env := sample_env reduced; doc := sample_doc; ajaxCache := ∅; log := [] |}.


(** Options that bring their own [beforeSend] hook, one that does nothing. *)
Definition quiet_options : options :=
  {| o_url := None; o_method := None; o_dataType := None;
     o_beforeSend := Some (fun st => st);
     handleResponse := VUndef; responseType := VStr "form";
     formSelector := Some (STagAttr "form" "data-json-form");
     containerSelector := None |}.


Definition about_link : element :=
  {| el_url := "/about/"; el_response_type := ""; el_json_handler := "";
     el_ajax_load := true |}.

Definition body_classes (st : page) : list (gset string) :=
  map classes (select (hasTag "body") (doc st)).

Definition other_terminal_class (o : outcome) : string :=
  match o with Success _ => "ajax-error" | Failure _ => "ajax-success" end.

(** * Properties *)

#[local] Open Scope list_scope.

(** ** Documents *)

Lemma node_ind' (P : node -> Prop) :
  (forall a kids, Forall P kids -> P (Elem a kids)) ->
  (forall v, P (Text v)) ->
  (forall h, P (Html h)) ->
  forall n, P n.
Proof.
  intros HE HT HH. fix IH 1. intros [a kids|v|h]; [|apply HT|apply HH].
  apply HE. induction kids as [|k kids IHk]; constructor; [apply IH|apply IHk].
Qed.



Lemma update_first_node_Elem p f a kids :
  update_first_node p f (Elem a kids) =
  if p a then Some (f (Elem a kids)) else Elem a <$> update_first p f kids.
Proof.
  simpl. destruct (p a); [done|]. f_equal.
  induction kids as [|k kids IH]; simpl; [done|].
  destruct (update_first_node p f k); [done|]. by rewrite IH.
Qed.

Section DocInvariant.
Variable P : attrs -> Prop.

Lemma all_elems_cons n l :
  all_elems P (n :: l) <-> Forall P (elems_node n) /\ all_elems P l.
Proof. unfold all_elems, elems. simpl. apply Forall_app. Qed.

Lemma all_elems_app l1 l2 :
  all_elems P (l1 ++ l2) <-> all_elems P l1 /\ all_elems P l2.
Proof.
  unfold all_elems, elems. rewrite flat_map_app. apply Forall_app.
Qed.

Lemma all_elems_Elem a kids :
  Forall P (elems_node (Elem a kids)) <-> P a /\ all_elems P kids.
Proof. simpl. apply Forall_cons. Qed.

Lemma all_elems_one n : all_elems P [n] <-> Forall P (elems_node n).
Proof. rewrite all_elems_cons. unfold all_elems. simpl. rewrite Forall_nil. tauto. Qed.

Lemma all_elems_flat_map g l :
  Forall (fun n => Forall P (elems_node n) -> all_elems P (g n)) l ->
  all_elems P l -> all_elems P (flat_map g l).
Proof.
  induction 1 as [|n l Hn _ IH]; simpl; [done|].
  rewrite all_elems_cons, all_elems_app. intros [H1 H2]. auto.
Qed.

Lemma all_elems_map g l :
  Forall (fun n => Forall P (elems_node n) -> Forall P (elems_node (g n))) l ->
  all_elems P l -> all_elems P (map g l).
Proof.
  induction 1 as [|n l Hn _ IH]; simpl; [done|].
  rewrite !all_elems_cons. intros [H1 H2]. auto.
Qed.

Lemma all_elems_amap f l :
  (forall a, P a -> P (f a)) -> all_elems P l -> all_elems P (amap f l).
Proof.
  intros Hf. apply all_elems_map. apply Forall_forall. intros n _.
  induction n as [a kids IH| |] using node_ind'; [|done..].
  change (amap_node f (Elem a kids)) with (Elem (f a) (amap f kids)).
  rewrite !all_elems_Elem. intros [Ha Hk]. split; [auto|].
  by apply all_elems_map.
Qed.

Lemma all_elems_remove p l : all_elems P l -> all_elems P (remove p l).
Proof.
  apply all_elems_flat_map. apply Forall_forall. intros n _.
  induction n as [a kids IH| |] using node_ind'; simpl; [|by rewrite all_elems_one..].
  rewrite Forall_cons. intros [Ha Hk]. destruct (p a); [constructor|].
  rewrite all_elems_one, all_elems_Elem. split; [done|].
  by apply all_elems_flat_map.
Qed.

Lemma all_elems_set_content p new l :
  all_elems P new -> all_elems P l -> all_elems P (set_content p new l).
Proof.
  intros Hnew. apply all_elems_map. apply Forall_forall. intros n _.
  induction n as [a kids IH| |] using node_ind'; [|done..].
  simpl set_content_node. destruct (p a); rewrite !all_elems_Elem; intros [Ha Hk].
  - done.
  - split; [done|]. by apply all_elems_map.
Qed.

Lemma all_elems_append p new l :
  Forall P (elems_node new) -> all_elems P l -> all_elems P (append p new l).
Proof.
  intros Hnew. apply all_elems_map. apply Forall_forall. intros n _.
  induction n as [a kids IH| |] using node_ind'; [|done..].
  simpl append_node. rewrite !all_elems_Elem, all_elems_app. intros [Ha Hk].
  split; [done|]. split; [by apply all_elems_map|].
  destruct (p a); [by apply all_elems_one | constructor].
Qed.

Lemma all_elems_update_first p f l l' :
  (forall m, Forall P (elems_node m) -> Forall P (elems_node (f m))) ->
  update_first p f l = Some l' -> all_elems P l -> all_elems P l'.
Proof.
  intros Hf.
  assert (forall n n', update_first_node p f n = Some n' ->
            Forall P (elems_node n) -> Forall P (elems_node n')) as Hnode.
  { induction n as [a kids IH| |] using node_ind'; [|done..].
    intros n'. rewrite update_first_node_Elem. destruct (p a).
    { intros [= <-]. apply Hf. }
    destruct (update_first p f kids) as [kids'|] eqn:Hgo; [|done].
    intros [= <-]. rewrite !all_elems_Elem. intros [Ha Hk]. split; [done|].
    clear Ha. revert kids' Hgo Hk.
    induction IH as [|k kids Hk0 _ IHkids]; intros kids'; simpl; [done|].
    rewrite all_elems_cons. destruct (update_first_node p f k) as [k'|] eqn:Hk'.
    - intros [= <-] [H1 H2]. rewrite all_elems_cons. eauto.
    - destruct (update_first p f kids) as [kids''|]; [|done]. simpl.
      intros [= <-] [H1 H2]. rewrite all_elems_cons. eauto. }
  revert l'. induction l as [|k l IH]; intros l'; simpl; [done|].
  rewrite all_elems_cons. destruct (update_first_node p f k) as [k'|] eqn:Hk'.
  - intros [= <-] [H1 H2]. rewrite all_elems_cons. eauto.
  - destruct (update_first p f l) as [l''|]; [|done]. simpl. intros [= <-] [H1 H2].
    rewrite all_elems_cons. eauto.
Qed.

Lemma all_elems_update_first_or_keep p f l :
  (forall m, Forall P (elems_node m) -> Forall P (elems_node (f m))) ->
  all_elems P l -> all_elems P (update_first_or_keep p f l).
Proof.
  intros Hf Hl. unfold update_first_or_keep.
  destruct (update_first p f l) as [l'|] eqn:E; simpl; [|done].
  eauto using all_elems_update_first.
Qed.

Lemma all_elems_mark form field err l :
  (forall a, P a -> field a = true -> P (addClass "is-invalid" a)) ->
  Forall P (elems_node err) ->
  all_elems P l -> all_elems P (mark form field err l).
Proof.
  intros Hadd Herr. unfold mark. generalize false.
  intros inside. revert inside. 
  assert (forall n inside, Forall P (elems_node n) ->
                           all_elems P (mark_node form field err inside n)) as Hn.
  { induction n as [a kids IH| |] using node_ind'; intros inside; simpl;
      [|by rewrite all_elems_one..].
    rewrite Forall_cons. intros [Ha Hk].
    assert (all_elems P (flat_map (mark_node form field err (inside || form a)) kids)).
    { apply all_elems_flat_map; [|done].
      eapply Forall_impl; [exact IH|]. simpl. auto. }
    destruct (field a) eqn:Hfield, inside; simpl.
    - rewrite all_elems_cons, all_elems_one, all_elems_Elem. auto.
    - rewrite all_elems_one, all_elems_Elem. auto.
    - rewrite all_elems_one, all_elems_Elem. auto.
    - rewrite all_elems_one, all_elems_Elem. auto. }
  intros inside. apply all_elems_flat_map. apply Forall_forall. auto.
Qed.
End DocInvariant.

(** ** What a response handler may do to the page *)

Lemma handled_refl st : handled st st.
Proof.
  split; try done. exists []. by rewrite app_nil_r.
Qed.

Lemma handled_trans st1 st2 st3 : handled st1 st2 -> handled st2 st3 -> handled st1 st3.
Proof.
  intros [E1 C1 (es1 & L1 & F1) D1] [E2 C2 (es2 & L2 & F2) D2]. split.
  - congruence.
  - congruence.
  - exists (es1 ++ es2). rewrite L2, L1, app_assoc. split; [done|].
    by apply Forall_app.
  - auto.
Qed.

Lemma handled_with_doc f st :
  (forall P, Stable P -> all_elems P (doc st) -> all_elems P (f (doc st))) ->
  handled st (with_doc f st).
Proof.
  intros Hf. split; try done. exists []. by rewrite app_nil_r.
Qed.

Lemma handled_emit_all es st :
  Forall (fun e => is_request e = false) es -> handled st (emit_all es st).
Proof. intros Hes. split; try done. by exists es. Qed.

Lemma handled_emit e st : is_request e = false -> handled st (emit e st).
Proof. intros He. split; try done. exists [e]. split; [done|]. by constructor. Qed.

Lemma Stable_created_node P n :
  Stable P -> Forall (fun a => a ∈ created) (elems_node n) -> Forall P (elems_node n).
Proof.
  intros [_ _ Hc] Hn. rewrite Forall_forall in *. auto.
Qed.

Lemma find_set_content_all P p new n :
  all_elems P new -> Forall P (elems_node n) ->
  Forall P (elems_node (find_set_content p new n)).
Proof.
  intros Hnew. destruct n as [a kids| |]; [|done..].
  unfold find_set_content. rewrite !all_elems_Elem. intros [Ha Hk]. split; [done|].
  by apply all_elems_set_content.
Qed.

Lemma set_text_below_all P p v n :
  Forall P (elems_node n) -> Forall P (elems_node (set_text_below p v n)).
Proof.
  destruct v; simpl; try done; apply find_set_content_all; constructor.
Qed.

Lemma set_own_text_all P v n :
  Forall P (elems_node n) -> Forall P (elems_node (set_own_text v n)).
Proof.
  destruct n as [a kids| |]; [|done..]. simpl. rewrite !Forall_cons.
  intros [Ha Hk]. split; [done|]. destruct v; simpl; try done; constructor.
Qed.

Lemma handled_showNotification message type st :
  handled st (showNotification message type st).
Proof.
  unfold showNotification.
  set (st1 := emit (Notify message _) st).
  assert (handled st st1) as H1 by (by apply handled_emit).
  eapply handled_trans; [exact H1|]. clearbody st1. clear H1.
  eapply handled_trans; [|by apply handled_emit].
  eapply handled_trans; [|apply handled_with_doc].
  2:{ intros P HP. apply all_elems_update_first_or_keep. apply set_text_below_all. }
  destruct (existsb _ _); [apply handled_refl|].
  apply handled_with_doc. intros P HP. apply all_elems_append.
  apply Stable_created_node; [done|]. vm_compute. repeat constructor.
Qed.

Lemma handled_announceToScreenReader message st :
  handled st (announceToScreenReader message st).
Proof.
  unfold announceToScreenReader.
  eapply handled_trans; [|apply handled_with_doc].
  2:{ intros P HP. apply all_elems_update_first_or_keep. apply set_own_text_all. }
  destruct (existsb _ _); [apply handled_refl|].
  apply handled_with_doc. intros P HP. apply all_elems_append.
  apply Stable_created_node; [done|]. vm_compute. repeat constructor.
Qed.

Lemma handled_swap_html p h st : handled st (swap_html p h st).
Proof.
  unfold swap_html. destruct (prefersReducedMotion _).
  - assert (handled st (with_doc (set_content p [Html h]) st)).
    { apply handled_with_doc. intros P HP. apply all_elems_set_content. constructor. }
    destruct h as [[]| |]; try done. apply handled_refl.
  - apply handled_emit_all. apply Forall_map. by apply Forall_true.
Qed.

Lemma handled_loadAjaxContent content st : handled st (loadAjaxContent content st).
Proof.
  unfold loadAjaxContent. destruct (existsb _ _); [|apply handled_refl].
  eapply handled_trans; [|by apply handled_emit].
  eapply handled_trans; [|apply handled_announceToScreenReader].
  apply handled_swap_html.
Qed.

Lemma handled_redirect_to url st : handled st (redirect_to url st).
Proof.
  unfold redirect_to. destruct (prefersReducedMotion _).
  - by apply handled_emit.
  - apply handled_emit_all. apply Forall_map. by apply Forall_true.
Qed.

Lemma all_elems_display_field_error P errors sel d field :
  Stable P -> all_elems P d -> all_elems P (display_field_error errors sel d field).
Proof.
  intros HP Hd. unfold display_field_error. destruct (existsb _ _); [|done].
  apply all_elems_mark; [intros a Ha _; by apply HP| |done].
  apply Stable_created_node; [done|]. vm_compute. repeat constructor.
Qed.

Lemma all_elems_clear_previous_errors P d :
  Stable P -> all_elems P d -> all_elems P (clear_previous_errors d).
Proof.
  intros HP Hd. unfold clear_previous_errors. apply all_elems_amap.
  - intros a Ha. unfold on. destruct (hasClass _ _); [by apply HP|done].
  - by apply all_elems_remove.
Qed.

Lemma handled_displayFormErrors errors sel st :
  handled st (displayFormErrors errors sel st).
Proof.
  unfold displayFormErrors.
  set (st1 := with_doc clear_previous_errors st).
  set (st2 := with_doc _ st1).
  assert (handled st st2) as H.
  { eapply handled_trans; apply handled_with_doc.
    - intros P HP. by apply all_elems_clear_previous_errors.
    - intros P HP. generalize (doc st1). generalize (map fst (own_props errors)).
      intros fields. induction fields as [|f fields IH]; simpl; [done|].
      intros d Hd. apply IH. by apply all_elems_display_field_error. }
  destruct (first_error _ _); [|done].
  destruct (negb _); [|done].
  eapply handled_trans; [exact H|]. by apply handled_emit.
Qed.

Lemma handled_updateSearchQueryDisplay query st :
  handled st (updateSearchQueryDisplay query st).
Proof.
  apply handled_with_doc. intros P HP. apply all_elems_set_content. constructor.
Qed.

Lemma handledM_ret {A} (a : A) : handledM (ret a).
Proof. intros st. apply handled_refl. Qed.

Lemma handledM_lift {A} (r : result A) : handledM (lift r).
Proof. intros st. apply handled_refl. Qed.

Lemma handledM_effect f : (forall st, handled st (f st)) -> handledM (effect f).
Proof. intros Hf st. apply Hf. Qed.

Lemma handledM_bind {A B} (m : M A) (k : A -> M B) :
  handledM m -> (forall a, handledM (k a)) -> handledM (bind m k).
Proof.
  intros Hm Hk st. unfold bind. specialize (Hm st).
  destruct (m st) as [st' [a|e]]; simpl in *; [|done].
  eapply handled_trans; [exact Hm|apply Hk].
Qed.

Lemma handledM_when b m : handledM m -> handledM (when b m).
Proof. destruct b; [done|]. intros _. apply handledM_ret. Qed.

Lemma handledM_for_each {A} (f : A -> M unit) l :
  (forall x, handledM (f x)) -> handledM (for_each f l).
Proof.
  intros Hf. induction l as [|x l IH]; simpl; [apply handledM_ret|].
  apply handledM_bind; auto.
Qed.

Create HintDb handled.
#[local] Hint Resolve handled_showNotification handled_announceToScreenReader
  handled_loadAjaxContent handled_redirect_to handled_displayFormErrors
  handled_updateSearchQueryDisplay handled_emit handled_refl : handled.

Ltac handledM :=
  repeat lazymatch goal with
    | |- handledM (bind _ _) => apply handledM_bind; [|intros ?]
    | |- handledM (when _ _) => apply handledM_when
    | |- handledM (effect _) => apply handledM_effect; intros ?; auto with handled
    | |- handledM (lift _) => apply handledM_lift
    | |- handledM (ret _) => apply handledM_ret
    | |- handledM (for_each _ _) => apply handledM_for_each; intros ?
    end.

Lemma handledM_processJsonData data options : handledM (processJsonData data options).
Proof. unfold processJsonData. handledM. Qed.

Lemma handledM_reset_form sel : handledM (reset_form sel).
Proof.
  intros st. unfold reset_form. destruct (head _) as [a|]; [|apply handled_refl].
  destruct (hasTag _ _); [by apply handled_emit|apply handled_refl].
Qed.

Lemma handledM_processFormResponse data options :
  handledM (processFormResponse data options).
Proof.
  unfold processFormResponse. handledM.
  - destruct (formSelector options); [apply handledM_reset_form|apply handledM_ret].
  - apply handledM_processJsonData.
Qed.

Lemma handledM_displaySearchResults results sel :
  handledM (displaySearchResults results sel).
Proof.
  intros st. unfold displaySearchResults.
  destruct (existsb _ _); [|apply handled_refl].
  destruct (prop results "length") as [[]|]; try apply handled_refl;
    try (destruct (forEach_items results) as [items|]; [|apply handled_refl];
         destruct (map_result result_row items); simpl;
         [apply handled_swap_html|apply handled_refl]).
  destruct n; try (destruct (forEach_items results) as [items|]; [|apply handled_refl];
         destruct (map_result result_row items); simpl;
         [apply handled_swap_html|apply handled_refl]).
  apply handled_with_doc. intros P HP. apply all_elems_set_content. constructor.
Qed.

Lemma handledM_processSearchResponse data options :
  handledM (processSearchResponse data options).
Proof.
  unfold processSearchResponse. handledM.
  - apply handledM_displaySearchResults.
  - apply handledM_processJsonData.
Qed.

Lemma handledM_processNotificationResponse data options :
  handledM (processNotificationResponse data options).
Proof.
  unfold processNotificationResponse. handledM.
  - unfold show_entry. handledM.
  - apply handledM_processJsonData.
Qed.

Lemma handledM_route data responseType options :
  handledM (route data responseType options).
Proof.
  unfold route.
  destruct responseType;
    auto using handledM_processJsonData.
  repeat case_match;
    auto using handledM_processJsonData, handledM_processFormResponse,
      handledM_processSearchResponse, handledM_processNotificationResponse.
Qed.

Lemma handled_handleJsonResponse data responseType options st :
  handled st (fst (handleJsonResponse data responseType options st)).
Proof.
  unfold handleJsonResponse.
  pose proof (handledM_route data responseType options st) as H.
  destruct (route _ _ _ st) as [st' [|]]; simpl in *; [done|].
  eapply handled_trans; [exact H|apply handled_showNotification].
Qed.

(** ** The loading flag and the terminal classes *)

Lemma elems_amap f l : elems (amap f l) = map f (elems l).
Proof.
  unfold amap, elems.
  induction l as [|n l IH]; simpl; [done|]. rewrite map_app, IH. f_equal.
  clear IH. induction n as [a kids IH| |] using node_ind'; simpl; [|done..].
  f_equal. induction IH as [|k kids Hk _ IHk]; simpl; [done|].
  by rewrite map_app, Hk, IHk.
Qed.

Lemma hasClass_true c a : hasClass c a = true <-> c ∈ classes a.
Proof. unfold hasClass. apply bool_decide_eq_true. Qed.

Lemma classes_on_add p c a x :
  x ∈ classes (on p (addClass c) a) <-> (p a = true /\ x = c) \/ x ∈ classes a.
Proof.
  unfold on. destruct (p a); simpl.
  - rewrite elem_of_union, elem_of_singleton. intuition congruence.
  - intuition congruence.
Qed.

Lemma classes_on_remove p c a x :
  x ∈ classes (on p (removeClass c) a) <->
  x ∈ classes a /\ (p a = true -> x <> c).
Proof.
  unfold on. destruct (p a); simpl.
  - rewrite elem_of_difference, elem_of_singleton. intuition congruence.
  - intuition congruence.
Qed.

Lemma hasTag_on t p f a :
  (forall b, tag (f b) = tag b) -> hasTag t (on p f a) = hasTag t a.
Proof. intros Hf. unfold hasTag, on. destruct (p a); [by rewrite Hf|done]. Qed.

Lemma show_loading_loading st : loading (show_loading st).
Proof.
  unfold loading, show_loading. simpl. rewrite !elems_amap.
  rewrite !Forall_map. apply Forall_true. intros a. split.
  - intros Hb. rewrite hasTag_on in Hb by done.
    apply classes_on_add. by left.
  - intros Hs. apply hasClass_true in Hs.
    apply classes_on_add in Hs as [[_ [=]]|Hs].
    apply classes_on_add in Hs as [[_ [=]]|Hs].
    apply classes_on_add. right. apply classes_on_add. left.
    split; [by apply hasClass_true|done].
Qed.

Lemma classes_addClass c a x : x ∈ classes (addClass c a) <-> x = c \/ x ∈ classes a.
Proof. simpl. by rewrite elem_of_union, elem_of_singleton. Qed.

Lemma classes_removeClass c a x :
  x ∈ classes (removeClass c a) <-> x ∈ classes a /\ x <> c.
Proof. simpl. by rewrite elem_of_difference, elem_of_singleton. Qed.

Lemma finish_loading_not_loading t st :
  t <> "ajax-loading" -> t <> "show" -> t <> "loading-spinner" ->
  not_loading (finish_loading t st).
Proof.
  intros H1 H2 H3. unfold not_loading, finish_loading. simpl. rewrite !elems_amap.
  rewrite !Forall_map. apply Forall_true. intros a.
  set (b := on (hasClass "loading-spinner") (removeClass "show") a).
  assert ("loading-spinner" ∈ classes b -> "show" ∉ classes b) as Hb.
  { subst b. intros Hs Hin. apply classes_on_remove in Hin as [Hin Hne].
    apply classes_on_remove in Hs as [Hs _].
    apply Hne; [by apply hasClass_true|done]. }
  clearbody b. split.
  - intros Hbody. rewrite hasTag_on in Hbody by done. unfold on. rewrite Hbody.
    rewrite classes_addClass, classes_removeClass. intros [?|[_ ?]]; congruence.
  - intros Hs. apply hasClass_true in Hs. revert Hs. unfold on.
    destruct (hasTag "body" b); [|done].
    rewrite !classes_addClass, !classes_removeClass.
    intros [?|[Hs _]] [?|[Hshow _]]; try congruence. by apply Hb.
Qed.

Lemma Stable_not_loading :
  Stable (fun a => body_lacks "ajax-loading" a /\ spinner_hidden a).
Proof.
  split.
  - intros a [H1 H2]. split.
    + intros Hb. rewrite classes_addClass. intros [[=]|?]. by apply H1.
    + intros Hs%hasClass_true. revert Hs. rewrite !classes_addClass.
      intros [[=]|Hs%hasClass_true] [[=]|?]. by apply H2.
  - intros a [H1 H2]. split.
    + intros Hb. rewrite classes_removeClass. intros [? _]. by apply H1.
    + intros Hs%hasClass_true. revert Hs. rewrite !classes_removeClass.
      intros [Hs%hasClass_true _] [? _]. by apply H2.
  - intros a Ha. unfold created in Ha.
    repeat (apply elem_of_cons in Ha as [->|Ha]); try (by apply elem_of_nil in Ha);
      split; intros H; vm_compute in H; discriminate.
Qed.

(** Every completion callback first clears the loading flag and adds its
    terminal class, then only notifies or hands the body to the router. *)
Lemma complete_shape r o st :
  exists st0,
    doc st0 = doc st /\ env st0 = env st /\ log st0 = log st /\
    (ajaxCache st0 = ajaxCache st \/
     exists el data, o = Success data /\ (r = Prefetch el \/ r = Load el) /\
       ajaxCache st0 = <[el_url el := data]> (ajaxCache st)) /\
    handled (finish_loading (terminal_class o) st0) (complete r o st).
Proof.
  destruct r as [el|el|opts], o as [data|xhr]; simpl.
  - exists (cache_put (el_url el) data st). do 3 (split; [done|]).
    split; [right; exists el, data; auto|].
    unfold prefetch_success. destruct (is_json el);
      [apply handled_handleJsonResponse|apply handled_refl].
  - exists st. do 3 (split; [done|]). split; [by left|].
    apply handled_showNotification.
  - exists (cache_put (el_url el) data st). do 3 (split; [done|]).
    split; [right; exists el, data; auto|].
    unfold load_success. destruct (is_json el);
      [apply handled_handleJsonResponse|apply handled_loadAjaxContent].
  - exists st. do 3 (split; [done|]). split; [by left|].
    apply handled_showNotification.
  - exists st. do 3 (split; [done|]). split; [by left|]. unfold sendJsonRequest_done.
    destruct (handleResponse opts) as [| |[]| | | |];
      first [apply handled_handleJsonResponse|apply handled_refl].
  - exists st. do 3 (split; [done|]). split; [by left|]. unfold sendJsonRequest_fail.
    eapply handled_trans; [apply handled_showNotification|by apply handled_emit].
Qed.

Lemma complete_not_loading r o st : not_loading (complete r o st).
Proof.
  destruct (complete_shape r o st) as (st0 & _ & _ & _ & _ & H).
  unfold not_loading.
  apply (handled_doc _ _ H _ Stable_not_loading).
  apply finish_loading_not_loading; destruct o; done.
Qed.

Lemma Stable_body_has c : c <> "is-invalid" -> Stable (body_has c).
Proof.
  intros Hc. split.
  - intros a Ha Hb. apply classes_addClass. right. by apply Ha.
  - intros a Ha Hb. apply classes_removeClass. split; [by apply Ha|done].
  - intros a Ha. unfold created in Ha.
    repeat (apply elem_of_cons in Ha as [->|Ha]); try (by apply elem_of_nil in Ha);
      intros H; vm_compute in H; discriminate.
Qed.

Lemma Stable_body_lacks c : c <> "is-invalid" -> Stable (body_lacks c).
Proof.
  intros Hc. split.
  - intros a Ha Hb. rewrite classes_addClass. intros [?|?]; [done|]. by apply Ha.
  - intros a Ha Hb. rewrite classes_removeClass. intros [? _]. by apply Ha.
  - intros a Ha. unfold created in Ha.
    repeat (apply elem_of_cons in Ha as [->|Ha]); try (by apply elem_of_nil in Ha);
      intros H; vm_compute in H; discriminate.
Qed.

Lemma finish_loading_body_has_terminal t st :
  Forall (body_has t) (elems (doc (finish_loading t st))).
Proof.
  unfold finish_loading. simpl. rewrite !elems_amap, !Forall_map.
  apply Forall_true. intros a Hb. rewrite hasTag_on in Hb by done.
  unfold on at 1. rewrite Hb. apply classes_addClass. by left.
Qed.

Lemma finish_loading_body_has t c st :
  c <> "ajax-loading" -> c <> "show" ->
  Forall (body_has c) (elems (doc st)) ->
  Forall (body_has c) (elems (doc (finish_loading t st))).
Proof.
  intros H1 H2. unfold finish_loading. simpl. rewrite !elems_amap, !Forall_map.
  intros Hall. eapply Forall_impl; [exact Hall|]. clear Hall.
  intros a Ha Hb. rewrite !hasTag_on in Hb by done.
  unfold on at 1. rewrite hasTag_on by done. rewrite Hb.
  rewrite classes_addClass, classes_removeClass. right. split; [|done].
  apply classes_on_remove. split; [by apply Ha|done].
Qed.

Lemma finish_loading_body_lacks t c st :
  c <> t ->
  Forall (body_lacks c) (elems (doc st)) ->
  Forall (body_lacks c) (elems (doc (finish_loading t st))).
Proof.
  intros H1. unfold finish_loading. simpl. rewrite !elems_amap, !Forall_map.
  intros Hall. eapply Forall_impl; [exact Hall|]. clear Hall.
  intros a Ha Hb. rewrite !hasTag_on in Hb by done.
  unfold on at 1. rewrite hasTag_on by done. rewrite Hb.
  rewrite classes_addClass, classes_removeClass. intros [?|[Hin _]]; [done|].
  apply classes_on_remove in Hin as [Hin _]. by apply Ha.
Qed.

Lemma terminal_class_not_marker o : terminal_class o <> "is-invalid".
Proof. by destruct o. Qed.

Lemma other_terminal_class_not_marker o : other_terminal_class o <> "is-invalid".
Proof. by destruct o. Qed.

(** C1 (amended). When a request completes, its callback adds the terminal
    class of its outcome to the body ([ajax-success] on success,
    [ajax-error] on failure) and touches the other terminal class in no
    way: a body that carried it keeps it, a body that did not still does
    not. *)
Theorem completion_adds_one_terminal_class r o st :
  Forall (body_has (terminal_class o)) (elems (doc (complete r o st))) /\
  (Forall (body_has (other_terminal_class o)) (elems (doc st)) ->
   Forall (body_has (other_terminal_class o)) (elems (doc (complete r o st)))) /\
  (Forall (body_lacks (other_terminal_class o)) (elems (doc st)) ->
   Forall (body_lacks (other_terminal_class o)) (elems (doc (complete r o st)))).
Proof.
  destruct (complete_shape r o st) as (st0 & Hdoc & _ & _ & _ & H).
  split; [|split].
  - apply (handled_doc _ _ H _ (Stable_body_has _ (terminal_class_not_marker o))).
    apply finish_loading_body_has_terminal.
  - intros Hhas.
    apply (handled_doc _ _ H _
             (Stable_body_has _ (other_terminal_class_not_marker o))).
    apply finish_loading_body_has; [by destruct o..|]. by rewrite Hdoc.
  - intros Hlacks.
    apply (handled_doc _ _ H _
             (Stable_body_lacks _ (other_terminal_class_not_marker o))).
    apply finish_loading_body_lacks; [by destruct o|]. by rewrite Hdoc.
Qed.

(** On the sample page: a failed submission leaves [ajax-error], and the
    success after it adds [ajax-success] next to it. *)
Lemma completion_adds_one_terminal_class_witness :
  let failed := {| status := 500; responseText := "" |} in
  let st1 := complete (Json form_options) (Failure failed)
               (sendJsonRequest "/donate/" (VObj []) "POST" form_options
                  (sample_page false)) in
  let st2 := complete (Json form_options) (Success (VObj []))
               (sendJsonRequest "/donate/" (VObj []) "POST" form_options st1) in
  Forall (body_lacks "ajax-success") (elems (doc st1)) /\
  Forall (body_has "ajax-error") (elems (doc st1)) /\
  Forall (body_has "ajax-success") (elems (doc st2)) /\
  Forall (body_has "ajax-error") (elems (doc st2)).
Proof.
  intros failed st1 st2.
  assert (Forall (body_lacks "ajax-success") (elems (doc st1))) as H1.
  { apply (completion_adds_one_terminal_class (Json form_options) (Failure failed)).
    vm_compute. repeat constructor; discriminate. }
  assert (Forall (body_has "ajax-error") (elems (doc st1))) as H2.
  { apply (completion_adds_one_terminal_class (Json form_options) (Failure failed)). }
  split; [exact H1|]. split; [exact H2|]. split.
  - apply (completion_adds_one_terminal_class (Json form_options) (Success (VObj []))).
  - apply (completion_adds_one_terminal_class (Json form_options) (Success (VObj []))).
    vm_compute. repeat constructor; try discriminate.
Defined.

(** C1 as stated fails: after a failed request and a later successful one
    the body carries both terminal classes. *)
Lemma both_terminal_classes_after_failure_then_success :
  body_classes
    (current
       (run {| current := sample_page false; pending := [] |}
          [ SendJson "/donate/" (VObj []) "POST" form_options;
            Complete 0 (Failure {| status := 500; responseText := "" |});
            SendJson "/donate/" (VObj []) "POST" form_options;
            Complete 0 (Success (VObj [("form_success", VStr "Thank you")])) ]))
  = [ {[ "ajax-error"; "ajax-success" ]} ].
Proof. vm_compute. reflexivity. Qed.

(** C3 (amended). The loading flag (every spinner shows, the body carries
    [ajax-loading]) is set on the page from which the request leaves: always
    for the hover and click fetches, and for a JSON request whenever the
    caller's options do not replace the [beforeSend] hook.  Every completion
    callback, on success and on failure, leaves the flag clear. *)
Theorem loading_flag_set_then_cleared :
  (forall el st,
     truthy (cached (el_url el) st) = false ->
     exists st1,
       loading st1 /\
       on_mouseenter el st =
         emit (Ajax (el_url el) "GET" (if is_json el then "json" else "html")) st1) /\
  (forall el st,
     el_ajax_load el || is_json el = true ->
     truthy (cached (el_url el) st) = false ->
     exists st1,
       loading st1 /\
       on_click el st =
         emit (Ajax (el_url el) "GET" (if is_json el then "json" else "html")) st1) /\
  (forall url data method o st,
     o_beforeSend o = None ->
     exists st1,
       loading st1 /\
       sendJsonRequest url data method o st =
         emit (Ajax (default url (o_url o)) (default method (o_method o))
                 (default "json" (o_dataType o))) st1) /\
  (forall r o st, not_loading (complete r o st)).
Proof.
  repeat split.
  - intros el st Hc. exists (show_loading st). split; [apply show_loading_loading|].
    unfold on_mouseenter. by rewrite Hc.
  - intros el st Hk Hc. exists (show_loading st). split; [apply show_loading_loading|].
    unfold on_click. by rewrite Hk, Hc.
  - intros url data method o st Ho. exists (show_loading st).
    split; [apply show_loading_loading|].
    unfold sendJsonRequest, ajax, extend. simpl. by rewrite Ho.
  - intros r o st. apply complete_not_loading.
Qed.

Lemma loading_flag_set_then_cleared_witness :
  (exists st1, loading st1 /\
     on_mouseenter about_link (sample_page false) = emit (Ajax "/about/" "GET" "html") st1) /\
  (exists st1, loading st1 /\
     on_click about_link (sample_page false) = emit (Ajax "/about/" "GET" "html") st1) /\
  (exists st1, loading st1 /\
     sendJsonRequest "/donate/" (VObj []) "POST" form_options (sample_page false) =
       emit (Ajax "/donate/" "POST" "json") st1) /\
  not_loading
    (complete (Json form_options) (Failure {| status := 500; responseText := "" |})
       (sendJsonRequest "/donate/" (VObj []) "POST" form_options (sample_page false))).
Proof.
  destruct loading_flag_set_then_cleared as (H1 & H2 & H3 & H4).
  split; [|split; [|split]].
  - apply (H1 about_link (sample_page false)). reflexivity.
  - apply (H2 about_link (sample_page false)); reflexivity.
  - apply (H3 "/donate/" (VObj []) "POST" form_options (sample_page false)).
    reflexivity.
  - apply H4.
Defined.

(** C3 as stated fails: options with their own [beforeSend] replace the
    hook that sets the flag, and the request leaves a page that is not
    loading. *)
Lemma loading_flag_not_set_with_own_beforeSend :
  let st := sendJsonRequest "/donate/" (VObj []) "POST" quiet_options
              (sample_page false) in
  log st = [Ajax "/donate/" "POST" "json"] /\
  body_classes st = [ ∅ ] /\
  ~ loading st.
Proof.
  split; [reflexivity|]. split; [reflexivity|].
  intros H. apply Forall_inv in H as [H _].
  specialize (H eq_refl). vm_compute in H. discriminate.
Qed.

(** ** The response cache *)

Lemma handled_requests_sent st st' :
  handled st st' -> requests_sent st' = requests_sent st.
Proof.
  intros [_ _ (es & Hlog & Hes) _]. unfold requests_sent. rewrite Hlog.
  rewrite List.filter_app, length_app.
  assert (List.filter is_request es = []) as ->; [|simpl; lia].
  clear Hlog. induction Hes as [|e es He _ IH]; [done|].
  change (List.filter is_request (e :: es))
    with (if is_request e then e :: List.filter is_request es
          else List.filter is_request es).
  by rewrite He.
Qed.

Lemma requests_sent_ajax el st :
  requests_sent (ajax (prefetch_settings el) st) = S (requests_sent st).
Proof.
  unfold requests_sent, ajax. simpl. rewrite List.filter_app, length_app. simpl. lia.
Qed.

(** C4 (amended). While the cache holds a truthy value for a URL, hovering
    does nothing at all and a click hands the cached value to its handler,
    both without a request.  A fetch is performed exactly when [ajaxCache[url]]
    is falsy: no entry yet, or an entry holding an empty body or a falsy JSON
    value.  Only the success callbacks of these fetches write the cache; no
    failure callback and no JSON request does. *)
Theorem cached_url_is_not_fetched_again :
  (forall el st,
     truthy (cached (el_url el) st) = true -> on_mouseenter el st = st) /\
  (forall el st,
     truthy (cached (el_url el) st) = true ->
     el_ajax_load el || is_json el = true ->
     requests_sent (on_click el st) = requests_sent st /\
     ajaxCache (on_click el st) = ajaxCache st /\
     on_click el st =
       if is_json el
       then fst (handleJsonResponse (cached (el_url el) st) (json_handler el)
                   no_options st)
       else loadAjaxContent (cached (el_url el) st) st) /\
  (forall el st,
     truthy (cached (el_url el) st) = false ->
     requests_sent (on_mouseenter el st) = S (requests_sent st) /\
     (el_ajax_load el || is_json el = true ->
      requests_sent (on_click el st) = S (requests_sent st))) /\
  (forall el st,
     ajaxCache (on_mouseenter el st) = ajaxCache st /\
     ajaxCache (on_click el st) = ajaxCache st) /\
  (forall r xhr st, ajaxCache (complete r (Failure xhr) st) = ajaxCache st) /\
  (forall o data st, ajaxCache (complete (Json o) (Success data) st) = ajaxCache st) /\
  (forall el data st,
     ajaxCache (complete (Prefetch el) (Success data) st)
       = <[el_url el := data]> (ajaxCache st) /\
     ajaxCache (complete (Load el) (Success data) st)
       = <[el_url el := data]> (ajaxCache st)).
Proof.
  assert (forall el st, truthy (cached (el_url el) st) = true ->
            el_ajax_load el || is_json el = true ->
            handled st (on_click el st)) as Hclick.
  { intros el st Hc Hk. unfold on_click. rewrite Hk, Hc.
    destruct (is_json el);
      [apply handled_handleJsonResponse|apply handled_loadAjaxContent]. }
  split; [|split; [|split; [|split; [|split; [|split]]]]].
  - intros el st Hc. unfold on_mouseenter. by rewrite Hc.
  - intros el st Hc Hk. split; [|split].
    + by apply handled_requests_sent, Hclick.
    + by apply handled_cache, Hclick.
    + unfold on_click. by rewrite Hk, Hc.
  - intros el st Hc. split.
    + unfold on_mouseenter. rewrite Hc. apply requests_sent_ajax.
    + intros Hk. unfold on_click. rewrite Hk, Hc. apply requests_sent_ajax.
  - intros el st. split.
    + unfold on_mouseenter. by destruct (negb _).
    + unfold on_click. destruct (el_ajax_load el || is_json el) eqn:Hk; [|done].
      destruct (truthy (cached (el_url el) st)) eqn:Hc; [|done].
      pose proof (Hclick el st Hc Hk) as H. unfold on_click in H.
      rewrite Hk, Hc in H. by apply handled_cache.
  - intros r xhr st.
    destruct (complete_shape r (Failure xhr) st)
      as (st0 & _ & _ & _ & [Hc|(el & data & [=] & _)] & H).
    by rewrite (handled_cache _ _ H).
  - intros o data st.
    destruct (complete_shape (Json o) (Success data) st)
      as (st0 & _ & _ & _ & [Hc|(el & d & _ & [[=]|[=]] & _)] & H).
    by rewrite (handled_cache _ _ H).
  - intros el data st. split.
    + simpl. unfold prefetch_success. destruct (is_json el); [|done].
      by rewrite (handled_cache _ _ (handled_handleJsonResponse _ _ _ _)).
    + simpl. unfold load_success. destruct (is_json el).
      * by rewrite (handled_cache _ _ (handled_handleJsonResponse _ _ _ _)).
      * by rewrite (handled_cache _ _ (handled_loadAjaxContent _ _)).
Qed.

(** On the sample page, with the About page fetched and cached. *)
Lemma cached_url_is_not_fetched_again_witness :
  let st := complete (Prefetch about_link) (Success (VStr "<h1>About</h1>"))
              (on_mouseenter about_link (sample_page false)) in
  requests_sent st = 1%nat /\
  on_mouseenter about_link st = st /\
  requests_sent (on_click about_link st) = 1%nat.
Proof.
  intros st.
  destruct cached_url_is_not_fetched_again as (H1 & H2 & _).
  split; [reflexivity|]. split.
  - apply (H1 about_link st). reflexivity.
  - apply (H2 about_link st); reflexivity.
Defined.

(** C4 as stated fails: a fetch that succeeds with an empty body writes a
    cache entry, and the next hover over the same link sends a second
    request. *)
Lemma empty_response_is_fetched_again :
  let st := complete (Prefetch about_link) (Success (VStr ""))
              (on_mouseenter about_link (sample_page false)) in
  ajaxCache st !! "/about/" = Some (VStr "") /\
  requests_sent st = 1%nat /\
  requests_sent (on_mouseenter about_link st) = 2%nat.
Proof. repeat split; reflexivity. Qed.

(** ** What the handlers emit *)

Lemma log_showNotification message type st :
  log (showNotification message type st) =
  log st ++ [ Notify message (match type with VUndef => VStr "info" | _ => type end);
              ToastShow (bootstrap_Toast (env st)) 3000 ].
Proof.
  unfold showNotification. destruct (existsb _ _); simpl; by rewrite <- app_assoc.
Qed.

Lemma env_showNotification message type st :
  env (showNotification message type st) = env st.
Proof. apply handled_env, handled_showNotification. Qed.

(** Reading a field of [null] throws, whatever the tag. *)
Lemma route_null responseType options st :
  route VNull responseType options st = (st, Throw (TypeError
    (match responseType with
     | VStr tag =>
         if String.eqb tag "form" then "form_errors"
         else if String.eqb tag "search" then "search_results"
         else if String.eqb tag "notification" then "notifications"
         else "message"
     | _ => "message"
     end))).
Proof.
  unfold route. destruct responseType; try reflexivity.
  repeat case_match; reflexivity.
Qed.

(** C5. [handleJsonResponse] returns [true] exactly when the handler chain
    of the tag returns without throwing, and then leaves the page as the
    chain left it.  When the chain throws, the exception stops at
    [handleJsonResponse]: the page stays as the chain left it, the
    notification "Error processing server response" is emitted with severity
    [error], and the call returns [false]. *)
Theorem handleJsonResponse_catches data responseType options st :
  let chain := route data responseType options st in
  let out := handleJsonResponse data responseType options st in
  snd out = is_ok (snd chain) /\
  (is_ok (snd chain) = true -> fst out = fst chain) /\
  (is_ok (snd chain) = false ->
   fst out = showNotification (VStr "Error processing server response")
               (VStr "error") (fst chain) /\
   log (fst out) =
     log (fst chain) ++
       [ Notify (VStr "Error processing server response") (VStr "error");
         ToastShow (bootstrap_Toast (env st)) 3000 ]).
Proof.
  cbv zeta. unfold handleJsonResponse.
  pose proof (handledM_route data responseType options st) as H.
  destruct (route data responseType options st) as [st' [[]|e]];
    cbn [fst snd is_ok] in *.
  - split; [done|]. split; [done|]. discriminate.
  - split; [done|]. split; [discriminate|]. intros _. split; [done|].
    rewrite log_showNotification. by rewrite (handled_env _ _ H).
Qed.

(** On the sample page: a message envelope is handled, a [null] body is
    caught. *)
Lemma handleJsonResponse_catches_witness :
  let ok := VObj [("message", VStr "Saved"); ("success", VBool true)] in
  fst (handleJsonResponse ok (VStr "default") no_options (sample_page false))
    = fst (route ok (VStr "default") no_options (sample_page false)) /\
  log (fst (handleJsonResponse VNull (VStr "form") no_options (sample_page false)))
    = [ Notify (VStr "Error processing server response") (VStr "error");
        ToastShow true 3000 ] /\
  snd (handleJsonResponse VNull (VStr "form") no_options (sample_page false)) = false.
Proof.
  intros ok. split; [|split].
  - apply (handleJsonResponse_catches ok (VStr "default") no_options
             (sample_page false)). reflexivity.
  - apply (handleJsonResponse_catches VNull (VStr "form") no_options
             (sample_page false)). reflexivity.
  - apply (handleJsonResponse_catches VNull (VStr "form") no_options
             (sample_page false)).
Defined.

Lemma bind_lift {A B} (r : result A) (k : A -> M B) st :
  bind (lift r) k st = match r with Ok a => k a st | Throw e => (st, Throw e) end.
Proof. by destruct r. Qed.

Lemma bind_Ok {A B} (m : M A) (k : A -> M B) st st' a :
  m st = (st', Ok a) -> bind m k st = k a st'.
Proof. unfold bind. by intros ->. Qed.

Lemma prop_not_nullish v k : nullish v = false -> prop v k = Ok (field v k).
Proof. unfold field. by destruct v. Qed.

Lemma prop_Ok_not_nullish v k x : prop v k = Ok x -> nullish v = false.
Proof. by destruct v. Qed.

Lemma or_else_info_defined t :
  match or_else t (VStr "info") with
  | VUndef => VStr "info"
  | _ => or_else t (VStr "info")
  end = or_else t (VStr "info").
Proof. unfold or_else. destruct (truthy t) eqn:E; [by destruct t|done]. Qed.

Lemma for_each_show_entry entries st :
  Forall (fun e => nullish e = false) entries ->
  exists st1,
    for_each show_entry entries st = (st1, Ok tt) /\
    env st1 = env st /\
    log st1 =
      log st ++ flat_map (fun e => [ entry_notification e;
                                     ToastShow (bootstrap_Toast (env st)) 3000 ])
                  entries.
Proof.
  intros Hall. revert st.
  induction Hall as [|e entries He _ IH]; intros st; simpl.
  - exists st. by rewrite app_nil_r.
  - set (st0 := showNotification (field e "message")
                  (or_else (field e "type") (VStr "info")) st).
    assert (show_entry e st = (st0, Ok tt)) as Hentry.
    { unfold show_entry. rewrite bind_lift, (prop_not_nullish e) by done.
      by rewrite bind_lift, (prop_not_nullish e) by done. }
    rewrite (bind_Ok _ _ _ _ _ Hentry).
    destruct (IH st0) as (st1 & Hrun & Henv & Hlog). exists st1.
    split; [done|]. subst st0. rewrite env_showNotification in *.
    split; [done|]. rewrite Hlog, log_showNotification, or_else_info_defined.
    by rewrite <- app_assoc.
Qed.

(** C9. For an envelope whose [notifications] field is a sequence of
    entries, the [notification] handler calls [showNotification] once per
    entry, in sequence order, with the entry's [message] and with the
    entry's [type] as severity, or [info] when the entry has no [type];
    only then does the shared generic processing run. *)
Theorem notifications_emitted_in_order data options st entries :
  prop data "notifications" = Ok (VArr entries) ->
  Forall (fun e => nullish e = false) entries ->
  exists st1,
    processNotificationResponse data options st = processJsonData data options st1 /\
    log st1 =
      log st ++ flat_map (fun e => [ entry_notification e;
                                     ToastShow (bootstrap_Toast (env st)) 3000 ])
                  entries /\
    List.filter is_notification
       (flat_map (fun e => [ entry_notification e;
                             ToastShow (bootstrap_Toast (env st)) 3000 ]) entries)
      = map entry_notification entries /\
    (forall ps,
       assoc "type" ps = None ->
       entry_notification (VObj ps) =
         Notify (default VUndef (assoc "message" ps)) (VStr "info")) /\
    (forall ps severity,
       assoc "type" ps = Some severity -> truthy severity = true ->
       entry_notification (VObj ps) =
         Notify (default VUndef (assoc "message" ps)) severity).
Proof.
  intros Hprop Hall.
  destruct (for_each_show_entry entries st Hall) as (st1 & Hrun & _ & Hlog).
  exists st1. split; [|split; [done|split; [|split]]].
  - unfold processNotificationResponse. rewrite bind_lift, Hprop.
    apply (bind_Ok _ (fun _ => processJsonData data options) st st1 tt).
    simpl when. by rewrite bind_lift.
  - clear. induction entries as [|e entries IH]; simpl; [done|]. by rewrite IH.
  - intros ps Ht. unfold entry_notification, field. simpl. by rewrite Ht.
  - intros ps severity Ht Htruthy. unfold entry_notification, field. simpl.
    rewrite Ht. simpl. unfold or_else. by rewrite Htruthy.
Qed.

(** The envelope [{notifications: [{message: "A"}, {message: "B", type:
    "warning"}]}]. *)
Lemma notifications_emitted_in_order_witness :
  let entries := [ VObj [("message", VStr "A")];
                   VObj [("message", VStr "B"); ("type", VStr "warning")] ] in
  let data := VObj [("notifications", VArr entries)] in
  exists st1,
    processNotificationResponse data no_options (sample_page false)
      = processJsonData data no_options st1 /\
    log st1 = [ Notify (VStr "A") (VStr "info"); ToastShow true 3000;
                Notify (VStr "B") (VStr "warning"); ToastShow true 3000 ].
Proof.
  intros entries data.
  destruct (notifications_emitted_in_order data no_options (sample_page false) entries)
    as (st1 & H1 & H2 & _).
  - reflexivity.
  - repeat constructor.
  - exists st1. split; [exact H1|exact H2].
Defined.

(** The generic handler, run on a body that is not [null]. *)
Lemma processJsonData_run data options st :
  nullish data = false ->
  let st1 :=
    if truthy (field data "message")
    then showNotification (field data "message")
           (if truthy (field data "success") then VStr "success" else VStr "error") st
    else st in
  let st2 :=
    if truthy (field data "redirect")
    then redirect_to (field data "redirect") st1 else st1 in
  let st3 :=
    if truthy (field data "content")
    then loadAjaxContent (field data "content") st2 else st2 in
  processJsonData data options st = (emit (JsonProcessed data) st3, Ok tt).
Proof.
  intros Hdata. cbv zeta. unfold processJsonData.
  rewrite bind_lift, (prop_not_nullish data) by done.
  destruct (truthy (field data "message")); simpl when.
  - unfold bind at 1. rewrite bind_lift, (prop_not_nullish data) by done.
    unfold effect at 1. rewrite bind_lift, (prop_not_nullish data) by done.
    destruct (truthy (field data "redirect")); simpl when.
    + unfold bind at 1. unfold effect at 1.
      rewrite bind_lift, (prop_not_nullish data) by done.
      by destruct (truthy (field data "content")).
    + unfold bind at 1. unfold ret at 1.
      rewrite bind_lift, (prop_not_nullish data) by done.
      by destruct (truthy (field data "content")).
  - unfold bind at 1. unfold ret at 1.
    rewrite bind_lift, (prop_not_nullish data) by done.
    destruct (truthy (field data "redirect")); simpl when.
    + unfold bind at 1. unfold effect at 1.
      rewrite bind_lift, (prop_not_nullish data) by done.
      by destruct (truthy (field data "content")).
    + unfold bind at 1. unfold ret at 1.
      rewrite bind_lift, (prop_not_nullish data) by done.
      by destruct (truthy (field data "content")).
Qed.

Lemma log_emit e st : log (emit e st) = log st ++ [e].
Proof. done. Qed.

Lemma log_emit_all es st : log (emit_all es st) = log st ++ es.
Proof. done. Qed.

Lemma log_announceToScreenReader message st :
  log (announceToScreenReader message st) = log st.
Proof. unfold announceToScreenReader. by destruct (existsb _ _). Qed.

Lemma log_loadAjaxContent content st :
  exists es,
    log (loadAjaxContent content st) = log st ++ es /\
    Forall (fun e => is_navigation e = false) es.
Proof.
  unfold loadAjaxContent. destruct (existsb _ _).
  2:{ exists []. by rewrite app_nil_r. }
  rewrite log_emit, log_announceToScreenReader. unfold swap_html.
  destruct (prefersReducedMotion (env st)).
  - exists [Later 100 TInitScrollAnimations]. split; [|by repeat constructor].
    by destruct content.
  - rewrite log_emit_all, <- app_assoc. eexists. split; [done|].
    apply Forall_app. split; [|by repeat constructor].
    apply Forall_map. by apply Forall_true.
Qed.

(** C7 (amended). For every envelope whose [message] and [redirect] are both
    truthy (in particular non-empty), the generic handler emits the message
    notification first; every navigation to the redirect URL, immediate
    under reduced motion or pending behind the fade otherwise, comes after
    it, and nothing but that navigates. *)
Theorem notification_precedes_navigation data options st message url :
  prop data "message" = Ok message -> truthy message = true ->
  prop data "redirect" = Ok url -> truthy url = true ->
  exists severity navigation rest,
    snd (processJsonData data options st) = Ok tt /\
    log (fst (processJsonData data options st)) =
      log st ++ Notify message severity
             :: ToastShow (bootstrap_Toast (env st)) 3000
             :: navigation ++ rest /\
    Forall (fun e => e = Navigate url \/ e = Later 500 (TNavigate url)) navigation /\
    (prefersReducedMotion (env st) = true -> navigation = [Navigate url]) /\
    Forall (fun e => is_navigation e = false) rest.
Proof.
  intros Hm Hmt Hu Hut.
  pose proof (prop_Ok_not_nullish _ _ _ Hm) as Hdata.
  rewrite (prop_not_nullish data) in Hm, Hu by done.
  injection Hm as Hm. injection Hu as Hu.
  rewrite (processJsonData_run data options st Hdata). cbv zeta.
  rewrite Hm, Hu, Hmt, Hut.
  set (severity := if truthy (field data "success") then _ else _).
  set (st1 := showNotification message severity st).
  assert (log st1 = log st ++ [Notify message severity;
                                ToastShow (bootstrap_Toast (env st)) 3000]) as Hlog1.
  { subst st1. rewrite log_showNotification. subst severity.
    by destruct (truthy (field data "success")). }
  assert (env st1 = env st) as Henv1 by apply env_showNotification.
  set (navigation :=
         if prefersReducedMotion (env st) then [Navigate url]
         else map (fun _ => Later 500 (TNavigate url))
                (select (hasClass "content-wrapper") (doc st1))).
  assert (log (redirect_to url st1) = log st1 ++ navigation) as Hlog2.
  { unfold redirect_to, navigation. rewrite Henv1.
    by destruct (prefersReducedMotion (env st)). }
  set (st3 := if truthy (field data "content") then _ else _).
  assert (exists es, log st3 = log (redirect_to url st1) ++ es /\
                     Forall (fun e => is_navigation e = false) es) as (es & Hlog3 & Hes).
  { subst st3. destruct (truthy (field data "content")).
    - apply log_loadAjaxContent.
    - exists []. by rewrite app_nil_r. }
  exists severity, navigation, (es ++ [JsonProcessed data]).
  split; [done|]. split; [|split; [|split]].
  - cbn [fst]. rewrite log_emit, Hlog3, Hlog2, Hlog1. by rewrite <- !app_assoc.
  - subst navigation. destruct (prefersReducedMotion (env st)).
    + repeat constructor.
    + apply Forall_map. apply Forall_true. auto.
  - intros Hr. subst navigation. by rewrite Hr.
  - apply Forall_app. split; [done|]. by repeat constructor.
Qed.

(** The envelope [{message: "Thank you", success: true, redirect:
    "/thanks/"}], with and without reduced motion. *)
Lemma notification_precedes_navigation_witness :
  let data := VObj [ ("message", VStr "Thank you"); ("success", VBool true);
                     ("redirect", VStr "/thanks/") ] in
  (exists severity navigation rest,
     log (fst (processJsonData data no_options (sample_page true))) =
       Notify (VStr "Thank you") severity :: ToastShow true 3000 :: navigation ++ rest /\
     navigation = [Navigate (VStr "/thanks/")] /\
     Forall (fun e => is_navigation e = false) rest) /\
  log (fst (processJsonData data no_options (sample_page false))) =
    [ Notify (VStr "Thank you") (VStr "success"); ToastShow true 3000;
      Later 500 (TNavigate (VStr "/thanks/")); JsonProcessed data ].
Proof.
  intros data. split; [|reflexivity].
  destruct (notification_precedes_navigation data no_options (sample_page true)
              (VStr "Thank you") (VStr "/thanks/"))
    as (severity & navigation & rest & _ & Hlog & _ & Hnav & Hrest);
    [reflexivity..|].
  exists severity, navigation, rest. split; [exact Hlog|]. split; [|exact Hrest].
  apply Hnav. reflexivity.
Defined.

(** C7 as stated fails: an envelope can contain a [message] field that is
    empty; then nothing is notified and the navigation begins all the same. *)
Lemma empty_message_is_not_notified :
  let data := VObj [("message", VStr ""); ("redirect", VStr "/thanks/")] in
  prop data "message" = Ok (VStr "") /\
  prop data "redirect" = Ok (VStr "/thanks/") /\
  processJsonData data no_options (sample_page true)
    = (emit_all [Navigate (VStr "/thanks/"); JsonProcessed data] (sample_page true),
       Ok tt).
Proof. repeat split; reflexivity. Qed.

(** ** The failure message of a JSON request *)







(** ** The toast *)

(** No call of [showNotification] gives any element a class it did not
    have: whatever the severity, no class is added to the toast. *)
Lemma showNotification_adds_no_class message type st c :
  c <> "toast" -> c <> "toast-body" -> c <> "message" ->
  all_elems (fun a => c ∉ classes a) (doc st) ->
  all_elems (fun a => c ∉ classes a) (doc (showNotification message type st)).
Proof.
  intros H1 H2 H3 Hdoc. unfold showNotification. cbn [doc emit with_doc].
  apply all_elems_update_first_or_keep; [intros m; apply set_text_below_all|].
  destruct (existsb _ _); cbn [doc emit with_doc]; [done|].
  apply all_elems_append; [|done].
  repeat constructor; simpl; rewrite ?elem_of_singleton; congruence.
Qed.

(** C2, at the call [showNotification('Saved', 'success')] on the sample
    page: the toast is created, its text is rewritten and it is shown
    through the toolkit, but its class list is still just [toast]; no
    element of the page carries the severity [success]. *)
Theorem showNotification_does_not_apply_severity :
  let st := showNotification (VStr "Saved") (VStr "success") (sample_page false) in
  doc st =
    append (hasTag "body")
      (Elem toast_attrs
         [Elem (plain "div" {[ "toast-body" ]})
            [Elem (plain "span" {[ "message" ]}) [Text (VStr "Saved")]]])
      sample_doc /\
  map classes (select (hasId "notification-toast") (doc st)) = [ {[ "toast" ]} ] /\
  select (hasClass "success") (doc st) = [] /\
  log st = [Notify (VStr "Saved") (VStr "success"); ToastShow true 3000].
Proof. repeat split; reflexivity. Qed.

(** ** Field errors *)


















Lemma remove_none_left p l : all_elems (fun a => p a = false) (remove p l).
Proof.
  unfold remove.
  assert (forall n, all_elems (fun a => p a = false) (remove_node p n)) as Hn.
  { induction n as [a kids IH| |] using node_ind'; simpl;
      [|by apply all_elems_one..].
    destruct (p a) eqn:Ha; [constructor|].
    apply all_elems_one, all_elems_Elem. split; [done|].
    clear Ha. induction IH as [|k kids Hk _ IHk]; simpl; [constructor|].
    by apply all_elems_app. }
  induction l as [|n l IH]; simpl; [constructor|]. by apply all_elems_app.
Qed.

Lemma clear_previous_errors_clean d :
  all_elems unmarked (clear_previous_errors d).
Proof.
  unfold clear_previous_errors, all_elems. rewrite elems_amap, Forall_map.
  eapply Forall_impl; [apply (remove_none_left (hasClass "error-message"))|].
  intros a Ha. simpl in Ha. split.
  - intros [Hin _]%classes_on_remove. apply hasClass_true in Hin. congruence.
  - intros [Hin Hne]%classes_on_remove. apply Hne; [by apply hasClass_true|done].
Qed.












(** C10. The clearing step of [displayFormErrors] leaves no error message
    element and no invalid marker anywhere in the document, whatever form
    the call is for.  Hence every error message element in the document
    after the call is one this call created, and every element marked
    invalid is a field named by a key of this call's errors: markers and
    messages rendered earlier, for this form or any other, are gone. *)
Theorem previous_errors_cleared_everywhere errors formSelector st :
  all_elems unmarked (clear_previous_errors (doc st)) /\
  all_elems
    (fun a =>
       ("error-message" ∈ classes a ->
        a = plain "div" {[ "error-message"; "text-danger" ]}) /\
       ("is-invalid" ∈ classes a ->
        exists field, attributes a !! "name" = Some field /\
                      field ∈ map fst (own_props errors)))
    (doc (displayFormErrors errors formSelector st)).
Proof.
  split; [apply clear_previous_errors_clean|].
  set (P := fun a => _ /\ _).
  assert (all_elems P (clear_previous_errors (doc st))) as Hstart.
  { eapply Forall_impl; [apply clear_previous_errors_clean|].
    intros a [H1 H2]. split; intros ?; done. }
  assert (forall fields d,
            (forall k, k ∈ fields -> k ∈ map fst (own_props errors)) ->
            all_elems P d ->
            all_elems P
              (fold_left (display_field_error (own_props errors) formSelector)
                 fields d)) as Hfold.
  { induction fields as [|k fields IH]; intros d Hkeys Hd; [done|].
    simpl. apply IH; [intros k' ?; apply Hkeys, elem_of_cons; by right|].
    unfold display_field_error. destruct (existsb _ _); [|done].
    apply all_elems_mark; [| |done].
    - intros a [H1 H2] Hname. apply bool_decide_eq_true in Hname. split.
      + rewrite classes_addClass. intros [?|Hin]; [done|].
        rewrite (H1 Hin) in Hname. unfold plain in Hname. cbn [attributes] in Hname.
        by rewrite lookup_empty in Hname.
      + intros _. exists k. split; [done|]. apply Hkeys, elem_of_cons. by left.
    - unfold error_message_div. apply all_elems_Elem. split; [|constructor].
      split; [done|]. simpl.
      rewrite elem_of_union, !elem_of_singleton. by intros [|]. }
  assert (all_elems P
            (fold_left (display_field_error (own_props errors) formSelector)
               (map fst (own_props errors)) (clear_previous_errors (doc st))))
    as Hdoc by (by apply Hfold).
  unfold displayFormErrors. cbn [doc with_doc].
  destruct (first_error _ _); [|done]. by destruct (negb _).
Qed.

(** On the sample page, errors displayed for the contact form erase the
    error the newsletter form was showing. *)
Example errors_of_the_other_form_are_erased :
  select (hasClass "error-message") sample_doc
    = [ plain "div" {[ "error-message"; "text-danger" ]} ] /\
  below (matches (SId "newsletter"))
    (doc (displayFormErrors (VObj [("name", VStr "Required")])
            (Some (SId "contact")) (sample_page false)))
    = [ with_attrs "input" {[ "name" := "email" ]} ∅ 900 ].
Proof. split; vm_compute; reflexivity. Qed.

(** ** The handlers in use *)

(** [ajaxPrefetch()] binds its handlers to the elements that have a URL
    not yet cached; the submit handler sends the form as a JSON POST. *)
Example handlers_bound_and_form_submitted :
  ajaxPrefetch
    [ about_link;
      {| el_url := ""; el_response_type := "json"; el_json_handler := "";
         el_ajax_load := false |} ]
    (sample_page false)
    = [about_link] /\
  log (on_submit "/contact/" "" [("email", "a@b.org")] (sample_page false))
    = [Ajax "/contact/" "POST" "json"].
Proof. split; reflexivity. Qed.

(** * Further properties of the pipeline *)

(** ** The router as a whole *)

Lemma bind_Throw_1 {A B} (m : M A) (k : A -> M B) st st' e :
  m st = (st', Throw e) -> bind m k st = (st', Throw e).
Proof. unfold bind. by intros ->. Qed.

Lemma bind_ret {A B} (a : A) (k : A -> M B) st : bind (ret a) k st = k a st.
Proof. done. Qed.

Lemma bind_effect {B} (f : page -> page) (k : unit -> M B) st :
  bind (effect f) k st = k tt (f st).
Proof. done. Qed.

(** X1. Whatever the envelope, the tag and the options, handling a response
    sends no request, leaves the response cache and the browser globals as
    they were, and only appends to what has been observed so far. *)
Theorem handleJsonResponse_frame data responseType options st :
  let st' := fst (handleJsonResponse data responseType options st) in
  env st' = env st /\
  ajaxCache st' = ajaxCache st /\
  requests_sent st' = requests_sent st /\
  exists es, log st' = log st ++ es /\ Forall (fun e => is_request e = false) es.
Proof.
  cbv zeta.
  pose proof (handled_handleJsonResponse data responseType options st) as H.
  split; [apply (handled_env _ _ H)|]. split; [apply (handled_cache _ _ H)|].
  split; [by apply handled_requests_sent|]. apply (handled_log _ _ H).
Qed.

Lemma route_without_typed_fields data responseType options st :
  nullish data = false ->
  Forall (fun k => truthy (field data k) = false)
    [ "form_errors"; "form_success"; "search_results"; "search_query";
      "notifications" ] ->
  route data responseType options st = processJsonData data options st.
Proof.
  intros Hdata Hfields.
  repeat (apply Forall_cons in Hfields as [? Hfields]).
  unfold route. destruct responseType; try done.
  repeat case_match; try done.
  - unfold processFormResponse.
    rewrite bind_lift, (prop_not_nullish data) by done.
    rewrite H. simpl when. rewrite bind_ret.
    rewrite bind_lift, (prop_not_nullish data) by done.
    rewrite H0. simpl when. by rewrite bind_ret.
  - unfold processSearchResponse.
    rewrite bind_lift, (prop_not_nullish data) by done.
    rewrite H1. simpl when. rewrite bind_ret.
    rewrite bind_lift, (prop_not_nullish data) by done.
    rewrite H2. simpl when. by rewrite bind_ret.
  - unfold processNotificationResponse.
    rewrite bind_lift, (prop_not_nullish data) by done.
    rewrite H3. simpl when. by rewrite bind_ret.
Qed.

(** X2. An envelope that carries none of the fields of the typed handlers
    is processed alike under every tag: the form, search and notification
    handlers reduce to the generic one. *)
Theorem tags_fall_through_to_generic data responseType options st :
  nullish data = false ->
  Forall (fun k => truthy (field data k) = false)
    [ "form_errors"; "form_success"; "search_results"; "search_query";
      "notifications" ] ->
  route data responseType options st = processJsonData data options st.
Proof. apply route_without_typed_fields. Qed.

(** The envelope [{message: "Saved", success: true}], tagged [search]. *)
Lemma tags_fall_through_to_generic_witness :
  let data := VObj [("message", VStr "Saved"); ("success", VBool true)] in
  route data (VStr "search") no_options (sample_page false)
    = processJsonData data no_options (sample_page false).
Proof.
  intros data.
  apply (tags_fall_through_to_generic data (VStr "search") no_options
           (sample_page false)); [reflexivity|].
  repeat constructor.
Defined.

(** X3. A body that is not [null] and has none of the fields any handler
    acts on (an empty object, a number, an HTML string, ...) is handled
    without complaint under every tag: nothing changes but the
    [jsonProcessed] event. *)
Theorem envelope_without_fields_is_only_announced data responseType options st :
  nullish data = false ->
  Forall (fun k => truthy (field data k) = false)
    [ "message"; "redirect"; "content"; "form_errors"; "form_success";
      "search_results"; "search_query"; "notifications" ] ->
  handleJsonResponse data responseType options st
    = (emit (JsonProcessed data) st, true).
Proof.
  intros Hdata Hfields.
  apply Forall_cons in Hfields as [Hm Hfields].
  apply Forall_cons in Hfields as [Hr Hfields].
  apply Forall_cons in Hfields as [Hc Hfields].
  unfold handleJsonResponse.
  rewrite (route_without_typed_fields data responseType options st Hdata Hfields).
  rewrite (processJsonData_run data options st Hdata). cbv zeta.
  by rewrite Hm, Hr, Hc.
Qed.

(** An HTML page that arrives where JSON was expected. *)
Lemma envelope_without_fields_is_only_announced_witness :
  handleJsonResponse (VStr "<!doctype html>") (VStr "form") form_options
    (sample_page false)
    = (emit (JsonProcessed (VStr "<!doctype html>")) (sample_page false), true).
Proof.
  apply (envelope_without_fields_is_only_announced (VStr "<!doctype html>")
           (VStr "form") form_options (sample_page false)); [reflexivity|].
  repeat constructor.
Defined.

(** X4. A [null] (or undefined) body is an error under every tag: the first
    field read throws, the page is left as it was, the generic error is
    notified and the call returns [false]. *)
Theorem null_body_is_reported data responseType options st :
  nullish data = true ->
  handleJsonResponse data responseType options st
    = (showNotification (VStr "Error processing server response") (VStr "error") st,
       false).
Proof.
  intros Hdata. unfold handleJsonResponse.
  assert (exists e, route data responseType options st = (st, Throw e)) as [e ->];
    [|done].
  unfold route. destruct data; try discriminate;
    destruct responseType; try (eexists; reflexivity);
    repeat case_match; eexists; reflexivity.
Qed.

Lemma null_body_is_reported_witness :
  snd (handleJsonResponse VNull (VStr "notification") no_options (sample_page false))
    = false /\
  log (fst (handleJsonResponse VNull (VStr "notification") no_options
              (sample_page false)))
    = [ Notify (VStr "Error processing server response") (VStr "error");
        ToastShow true 3000 ].
Proof.
  rewrite (null_body_is_reported VNull (VStr "notification") no_options
             (sample_page false) eq_refl).
  split; reflexivity.
Defined.

(** X5. A form envelope that announces success while the form selector finds
    no form to reset (no element, or a first element that is not a form) is
    reported as a processing error: [reset] throws, the success message is
    never shown and the generic fields are not processed. *)
Theorem form_success_without_a_form_is_an_error data options st sel :
  nullish data = false ->
  truthy (field data "form_errors") = false ->
  truthy (field data "form_success") = true ->
  formSelector options = Some sel ->
  (forall a, head (select (matches sel) (doc st)) = Some a -> hasTag "form" a = false) ->
  handleJsonResponse data (VStr "form") options st
    = (showNotification (VStr "Error processing server response") (VStr "error") st,
       false).
Proof.
  intros Hdata Herrors Hsuccess Hsel Hform. unfold handleJsonResponse.
  assert (route data (VStr "form") options st = (st, Throw (TypeError "reset")))
    as ->; [|done].
  change (route data (VStr "form") options st)
    with (processFormResponse data options st).
  unfold processFormResponse.
  rewrite bind_lift, (prop_not_nullish data) by done.
  rewrite Herrors. simpl when. rewrite bind_ret.
  rewrite bind_lift, (prop_not_nullish data) by done.
  rewrite Hsuccess, Hsel. simpl when.
  apply bind_Throw_1. apply bind_Throw_1.
  unfold reset_form. destruct (head _) as [a|]; [|done].
  by rewrite (Hform a eq_refl).
Qed.

Lemma form_success_without_a_form_is_an_error_witness :
  let data := VObj [("form_success", VStr "Thank you")] in
  let options := {| o_url := None; o_method := None; o_dataType := None;
                    o_beforeSend := None; handleResponse := VUndef;
                    responseType := VStr "form";
                    formSelector := Some (SId "signup");
                    containerSelector := None |} in
  log (fst (handleJsonResponse data (VStr "form") options (sample_page false)))
    = [ Notify (VStr "Error processing server response") (VStr "error");
        ToastShow true 3000 ].
Proof.
  intros data options.
  rewrite (form_success_without_a_form_is_an_error data options (sample_page false)
             (SId "signup")); [reflexivity..|].
  intros a [=].
Defined.

(** ** Search results *)

Lemma contents_set_content p new l :
  contents p (set_content p new l) = map (fun _ => new) (contents p l).
Proof.
  unfold contents, set_content.
  induction l as [|n l IHl]; simpl; [done|]. rewrite map_app, IHl. f_equal.
  clear IHl. induction n as [a kids IH| |] using node_ind'; [|done..].
  simpl. destruct (p a) eqn:Ha; simpl; rewrite Ha; [done|].
  induction IH as [|k kids Hk _ IHk]; simpl; [done|].
  by rewrite map_app, Hk, IHk.
Qed.

Lemma map_result_rows items :
  Forall (fun r => nullish r = false) items ->
  map_result result_row items = Ok (map row_of items).
Proof.
  induction 1 as [|r items Hr _ IH]; simpl; [done|].
  unfold result_row at 1. rewrite !(prop_not_nullish r) by done.
  by rewrite IH.
Qed.

(** X6. [displaySearchResults] renders all or nothing: whenever it throws
    (results that are not an array, or an array with a [null] entry), the
    page is exactly as before; and without a results container on the page
    it returns at once, whatever the results are. *)
Theorem displaySearchResults_all_or_nothing results sel st :
  (forall st' e, displaySearchResults results sel st = (st', Throw e) -> st' = st) /\
  (existsb (matches_opt sel) (elems (doc st)) = false ->
   displaySearchResults results sel st = (st, Ok tt)).
Proof.
  unfold displaySearchResults. split.
  - intros st' e. destruct (existsb _ _); [|by intros [= <-]].
    destruct (prop results "length") as [v|e0]; [|by intros [= <-]].
    destruct (forEach_items results) as [items|e1] eqn:Hitems.
    + destruct (map_result result_row items) as [rows|e2].
      * by destruct v as [| | |[]| | |].
      * destruct v as [| | |[]| | |]; by intros [= <-].
    + destruct v as [| | |[]| | |]; by intros [= <-].
  - by intros ->.
Qed.

(** Results whose second entry is [null], for the AJAX container of the
    sample page; and results for a container the page does not have. *)
Lemma displaySearchResults_all_or_nothing_witness :
  let results := VArr [ VObj [("url", VStr "/a/"); ("title", VStr "A")]; VNull ] in
  displaySearchResults results (Some (SClass "ajax-container")) (sample_page true)
    = (sample_page true, Throw (TypeError "url")) /\
  displaySearchResults (VNum 7) (Some (SClass "results")) (sample_page true)
    = (sample_page true, Ok tt).
Proof.
  intros results. split.
  - pose proof (proj1 (displaySearchResults_all_or_nothing results
                  (Some (SClass "ajax-container")) (sample_page true))) as H.
    destruct (displaySearchResults results (Some (SClass "ajax-container"))
                (sample_page true)) as [st' r] eqn:E.
    assert (r = Throw (TypeError "url")) as -> by (by injection E as _ <-).
    by rewrite (H st' (TypeError "url") eq_refl).
  - apply (displaySearchResults_all_or_nothing (VNum 7) (Some (SClass "results"))
             (sample_page true)). reflexivity.
Defined.

(** X7. A non-empty array of results, none of them [null], is rendered as
    one row per result, in the order given, each row made of the result's
    [url], [title] and [excerpt] ([undefined] where one is missing).  With
    reduced motion every results container holds exactly that list at the
    return; otherwise the document is untouched for now and one swap is
    pending per container. *)
Theorem search_results_rendered_in_order items sel st :
  items <> [] ->
  Forall (fun r => nullish r = false) items ->
  existsb (matches sel) (elems (doc st)) = true ->
  let st' := fst (displaySearchResults (VArr items) (Some sel) st) in
  let list := HResults (map row_of items) in
  snd (displaySearchResults (VArr items) (Some sel) st) = Ok tt /\
  (prefersReducedMotion (env st) = true ->
   log st' = log st /\
   contents (matches sel) (doc st')
     = map (fun _ => [Html list]) (contents (matches sel) (doc st))) /\
  (prefersReducedMotion (env st) = false ->
   doc st' = doc st /\
   log st' = log st ++ map (fun _ => Later 300 (TSetHtml (matches sel) list))
                        (select (matches sel) (doc st))).
Proof.
  intros Hne Hitems Hcontainer. cbv zeta.
  assert (displaySearchResults (VArr items) (Some sel) st
          = (swap_html (matches sel) (HResults (map row_of items)) st, Ok tt)) as ->.
  { pose proof (map_result_rows items Hitems) as Hrows.
    destruct items as [|r items]; [done|].
    assert (prop (VArr (r :: items)) "length"
            = Ok (VNum (Z.pos (Pos.of_succ_nat (length items))))) as Hlen by done.
    unfold displaySearchResults.
    change (matches_opt (Some sel)) with (matches sel).
    rewrite Hcontainer, Hlen. cbv beta iota.
    change (forEach_items (VArr (r :: items))) with (Ok (r :: items)).
    cbv beta iota. by rewrite Hrows. }
  split; [done|]. unfold swap_html. cbn [fst]. split; intros ->.
  - split; [done|]. cbn [doc with_doc]. apply contents_set_content.
  - done.
Qed.

Lemma search_results_rendered_in_order_witness :
  let items := [ VObj [("url", VStr "/clinics/"); ("title", VStr "Clinics");
                       ("excerpt", VStr "Where to find us")];
                 VObj [("url", VStr "/donate/"); ("title", VStr "Donate")] ] in
  let st' := fst (displaySearchResults (VArr items) (Some (SClass "ajax-container"))
                    (sample_page true)) in
  contents (hasClass "ajax-container") (doc st')
    = [ [ Html (HResults
                  [ (VStr "/clinics/", VStr "Clinics", VStr "Where to find us");
                    (VStr "/donate/", VStr "Donate", VUndef) ]) ] ].
Proof.
  intros items st'.
  destruct (search_results_rendered_in_order items (SClass "ajax-container")
              (sample_page true)) as (_ & H & _).
  - discriminate.
  - repeat constructor.
  - reflexivity.
  - destruct (H eq_refl) as [_ Hc]. etransitivity; [exact Hc|]. reflexivity.
Defined.

(** X8. An envelope routed as [search] whose [search_results] is the empty
    array puts the empty-state message into every results container at
    once, with or without reduced motion and without a pending fade, before
    the query display and the generic fields are processed. *)
Theorem empty_search_results_show_empty_state data options st sel :
  prop data "search_results" = Ok (VArr []) ->
  containerSelector options = Some sel ->
  existsb (matches sel) (elems (doc st)) = true ->
  let st' := with_doc (set_content (matches sel) [Html HNoResults]) st in
  route data (VStr "search") options st =
    (let* search_query := lift (prop data "search_query") in
     when (truthy search_query) (effect (updateSearchQueryDisplay search_query)) >>
     processJsonData data options) st' /\
  log st' = log st /\
  contents (matches sel) (doc st')
    = map (fun _ => [Html HNoResults]) (contents (matches sel) (doc st)).
Proof.
  intros Hprop Hsel Hcontainer. cbv zeta. split; [|split; [done|]].
  - change (route data (VStr "search") options st)
      with (processSearchResponse data options st).
    unfold processSearchResponse. rewrite bind_lift, Hprop. simpl when.
    erewrite (bind_Ok (displaySearchResults (VArr []) (containerSelector options)));
      [reflexivity|].
    unfold displaySearchResults. rewrite Hsel.
    change (matches_opt (Some sel)) with (matches sel). by rewrite Hcontainer.
  - apply contents_set_content.
Qed.

Lemma empty_search_results_show_empty_state_witness :
  let data := VObj [("search_results", VArr [])] in
  let st' := fst (route data (VStr "search") (search_options (SClass "ajax-container"))
                    (sample_page false)) in
  contents (hasClass "ajax-container") (doc st') = [ [Html HNoResults] ] /\
  log st' = [JsonProcessed data].
Proof.
  intros data st'. subst st'.
  destruct (empty_search_results_show_empty_state data
              (search_options (SClass "ajax-container")) (sample_page false)
              (SClass "ajax-container")) as (Hroute & _ & _); [reflexivity..|].
  rewrite Hroute. split; reflexivity.
Defined.

(** ** The toast and the live region *)

Lemma first_node_in_Elem p a kids :
  first_node_in p (Elem a kids) = if p a then Some (Elem a kids) else first_node p kids.
Proof.
  simpl. destruct (p a); [done|].
  induction kids as [|k kids IH]; simpl; [done|].
  destruct (first_node_in p k); [done|]. exact IH.
Qed.

Lemma first_node_app p l1 l2 :
  first_node p (l1 ++ l2) =
  match first_node p l1 with Some x => Some x | None => first_node p l2 end.
Proof.
  induction l1 as [|k l1 IH]; simpl; [done|]. by destruct (first_node_in p k).
Qed.

Lemma first_node_exists p l :
  existsb p (elems l) = true <-> is_Some (first_node p l).
Proof.
  assert (forall n, existsb p (elems_node n) = true <-> is_Some (first_node_in p n))
    as Hnode.
  { induction n as [a kids IH| |] using node_ind';
      [|simpl; split; [done|by intros [? [=]]]..].
    rewrite first_node_in_Elem. simpl existsb. destruct (p a); simpl; [by split|].
    induction IH as [|k kids Hk _ IHk]; simpl.
    - split; [done|by intros [? [=]]].
    - rewrite existsb_app, orb_true_iff, Hk, IHk.
      destruct (first_node_in p k); simpl; [split; eauto|].
      split; [by intros [[? [=]]|?]|by right]. }
  unfold elems. induction l as [|k l IH]; simpl.
  - split; [done|by intros [? [=]]].
  - rewrite existsb_app, orb_true_iff, Hnode, IH.
    destruct (first_node_in p k); simpl; [split; eauto|].
    split; [by intros [[? [=]]|?]|by right].
Qed.

(** Rewriting the first selected element in place leaves it the first. *)
Lemma first_node_update_first p f l :
  (forall a kids, p a = true -> exists kids', f (Elem a kids) = Elem a kids') ->
  first_node p (update_first_or_keep p f l) = f <$> first_node p l.
Proof.
  intros Hf. unfold update_first_or_keep.
  assert (forall n,
            match update_first_node p f n with
            | Some n' => first_node_in p n' = f <$> first_node_in p n /\
                         is_Some (first_node_in p n)
            | None => first_node_in p n = None
            end) as Hnode.
  { induction n as [a kids IH| |] using node_ind'; [|done..].
    rewrite update_first_node_Elem, first_node_in_Elem.
    destruct (p a) eqn:Ha.
    { destruct (Hf a kids Ha) as [kids' Hk']. rewrite Hk', first_node_in_Elem, Ha.
      split; [by rewrite <- Hk'|eauto]. }
    assert (match update_first p f kids with
            | Some kids' => first_node p kids' = f <$> first_node p kids /\
                            is_Some (first_node p kids)
            | None => first_node p kids = None
            end) as Hkids.
    { induction IH as [|k kids Hk _ IHk]; simpl; [done|].
      destruct (update_first_node p f k) as [k'|].
      - destruct Hk as [Hk1 [x Hk2]]. simpl. rewrite Hk1, Hk2. simpl.
        split; [done|eauto].
      - rewrite Hk. destruct (update_first p f kids) as [kids'|]; simpl.
        + by rewrite Hk.
        + done. }
    destruct (update_first p f kids) as [kids'|];
      cbn -[first_node_in first_node]; [|done].
    by rewrite first_node_in_Elem, Ha. }
  assert (match update_first p f l with
          | Some l' => first_node p l' = f <$> first_node p l
          | None => first_node p l = None
          end) as Hl.
  { induction l as [|k l IH]; simpl; [done|]. specialize (Hnode k).
    destruct (update_first_node p f k) as [k'|].
    - destruct Hnode as [Hk1 [x Hk2]]. simpl. by rewrite Hk1, Hk2.
    - rewrite Hnode. destruct (update_first p f l) as [l'|]; simpl.
      + by rewrite Hnode.
      + done. }
  destruct (update_first p f l) as [l'|]; simpl; [done|]. by rewrite Hl.
Qed.

(** Appending a selected element to every [q] makes it the first selected
    one, where none was selected before. *)
Lemma first_node_append p q a0 kids0 l :
  p a0 = true ->
  first_node p l = None ->
  first_node p (append q (Elem a0 kids0) l) =
  if existsb q (elems l) then Some (Elem a0 kids0) else None.
Proof.
  intros Hnew. unfold append, elems.
  assert (forall n, first_node_in p n = None ->
            first_node_in p (append_node q (Elem a0 kids0) n) =
            if existsb q (elems_node n) then Some (Elem a0 kids0) else None)
    as Hnode.
  { induction n as [a kids IH| |] using node_ind'; [|done..].
    rewrite first_node_in_Elem. destruct (p a) eqn:Ha; [done|]. intros Hkids.
    simpl append_node. rewrite first_node_in_Elem, Ha, first_node_app.
    simpl existsb.
    assert (first_node p (map (append_node q (Elem a0 kids0)) kids) =
            if existsb q (flat_map elems_node kids) then Some (Elem a0 kids0)
            else None) as ->.
    { revert Hkids. induction IH as [|k kids Hk _ IHk]; simpl; [done|].
      destruct (first_node_in p k) eqn:Hfk; [done|]. intros Hrest.
      rewrite (Hk eq_refl), existsb_app.
      destruct (existsb q (elems_node k)); simpl; [done|]. by apply IHk. }
    destruct (existsb q (flat_map elems_node kids)); [by rewrite orb_true_r|].
    rewrite orb_false_r. destruct (q a); cbn -[first_node_in]; [|done].
    by rewrite first_node_in_Elem, Hnew. }
  induction l as [|k l IH]; simpl; [done|].
  destruct (first_node_in p k) eqn:Hfk; [done|]. intros Hrest.
  rewrite (Hnode k Hfk), existsb_app.
  destruct (existsb q (elems_node k)); simpl; [done|]. by apply IH.
Qed.

Lemma first_node_None p l : existsb p (elems l) = false -> first_node p l = None.
Proof.
  intros H. destruct (first_node p l) eqn:E; [|done].
  assert (existsb p (elems l) = true) by (apply first_node_exists; eauto).
  congruence.
Qed.

Lemma first_node_is_Elem p l x :
  first_node p l = Some x -> exists a kids, x = Elem a kids.
Proof.
  assert (forall n, first_node_in p n = Some x -> exists a kids, x = Elem a kids)
    as Hnode.
  { induction n as [a kids IH| |] using node_ind'; [|done..].
    rewrite first_node_in_Elem. destruct (p a); [intros [= <-]; eauto|].
    induction IH as [|k kids Hk _ IHk]; simpl; [done|].
    destruct (first_node_in p k) eqn:Hfk; [intros [= ->]; by apply Hk|done]. }
  induction l as [|k l IH]; simpl; [done|].
  destruct (first_node_in p k) eqn:Hfk; [intros [= ->]; by apply (Hnode k)|done].
Qed.

(** X9. [showNotification] keeps one toast and shows the latest message in
    it.  On a page with a body or with a toast, after a call with a message
    the first toast of the document exists and each of its message slots
    holds exactly the message just given.  A page without a toast gets the
    fresh toast, with its one message slot; a page with a toast gets no new
    element at all. *)
Theorem toast_shows_latest_message message type st :
  message <> VUndef ->
  existsb (hasId "notification-toast") (elems (doc st))
    || existsb (hasTag "body") (elems (doc st)) = true ->
  let st' := showNotification message type st in
  exists a kids,
    first_node (hasId "notification-toast") (doc st') = Some (Elem a kids) /\
    Forall (fun slot => slot = [Text message]) (contents (hasClass "message") kids) /\
    (existsb (hasId "notification-toast") (elems (doc st)) = false ->
     a = toast_attrs /\ contents (hasClass "message") kids = [[Text message]]) /\
    (existsb (hasId "notification-toast") (elems (doc st)) = true ->
     all_elems (fun b => b ∈ elems (doc st)) (doc st')).
Proof.
  intros Hmessage Hpage. cbv zeta. unfold showNotification. cbn [doc emit with_doc].
  rewrite first_node_update_first.
  2:{ intros a kids _. destruct message; try done; simpl; eauto. }
  assert (forall kids,
            contents (hasClass "message")
              (set_content (hasClass "message") [Text message] kids)
            = map (fun _ => [Text message]) (contents (hasClass "message") kids))
    as Hslots by (intros; apply contents_set_content).
  assert (forall a kids,
            set_text_below (hasClass "message") message (Elem a kids)
            = Elem a (set_content (hasClass "message") [Text message] kids)) as Hset.
  { intros a kids. by destruct message. }
  destruct (existsb (hasId "notification-toast") (elems (doc st))) eqn:Htoast;
    cbn [doc emit with_doc].
  - assert (is_Some (first_node (hasId "notification-toast") (doc st)))
      as [n Hn] by (by apply first_node_exists).
    rewrite Hn. simpl fmap.
    destruct (first_node_is_Elem _ _ _ Hn) as (a & kids & ->).
    rewrite Hset. exists a, (set_content (hasClass "message") [Text message] kids).
    split; [done|]. split; [|split; [done|]].
    + rewrite Hslots. apply Forall_map. by apply Forall_true.
    + intros _. apply all_elems_update_first_or_keep.
      * intros m. apply set_text_below_all.
      * apply Forall_forall. auto.
  - simpl in Hpage. unfold toastHTML.
    rewrite (first_node_append _ _ toast_attrs) by (done || by apply first_node_None).
    rewrite Hpage. simpl fmap. rewrite Hset. eexists _, _. split; [done|].
    split; [|split; [|done]].
    + rewrite Hslots. apply Forall_map. by apply Forall_true.
    + intros _. split; [done|]. by rewrite Hslots.
Qed.

(** Two notifications in a row on the sample page. *)
Lemma toast_shows_latest_message_witness :
  let st1 := showNotification (VStr "Saved") (VStr "success") (sample_page false) in
  let st2 := showNotification (VStr "Failed to load content") (VStr "error") st1 in
  exists a kids,
    first_node (hasId "notification-toast") (doc st2) = Some (Elem a kids) /\
    contents (hasClass "message") kids = [[Text (VStr "Failed to load content")]] /\
    length (select (hasId "notification-toast") (doc st2)) = 1%nat.
Proof.
  intros st1 st2.
  destruct (toast_shows_latest_message (VStr "Failed to load content") (VStr "error")
              st1) as (a & kids & Hfirst & _ & _ & _); [discriminate|reflexivity|].
  exists a, kids. split; [exact Hfirst|].
  assert (Some (Elem a kids)
          = Some (Elem toast_attrs
                    [Elem (plain "div" {[ "toast-body" ]})
                       [Elem (plain "span" {[ "message" ]})
                          [Text (VStr "Failed to load content")]]])) as [= -> ->].
  { rewrite <- Hfirst. reflexivity. }
  split; reflexivity.
Defined.

(** X10. [announceToScreenReader] keeps one live region and rewrites its
    text: on a page with a body or with a live region, after the call the
    first live region of the document exists and contains exactly the
    message just announced, whatever it contained before.  Nothing is
    logged: there is no step that shows the region. *)
Theorem live_region_holds_latest_announcement message st :
  message <> VUndef ->
  existsb (hasId "sr-announcement") (elems (doc st))
    || existsb (hasTag "body") (elems (doc st)) = true ->
  let st' := announceToScreenReader message st in
  (exists a,
     first_node (hasId "sr-announcement") (doc st') = Some (Elem a [Text message])) /\
  log st' = log st.
Proof.
  intros Hmessage Hpage. cbv zeta. split; [|apply log_announceToScreenReader].
  unfold announceToScreenReader. cbn [doc with_doc].
  rewrite first_node_update_first.
  2:{ intros a kids _. simpl. eauto. }
  assert (forall kids, text_of message kids = [Text message])
    as Hset by (intros; by destruct message).
  destruct (existsb (hasId "sr-announcement") (elems (doc st))) eqn:Hregion;
    cbn [doc with_doc].
  - assert (is_Some (first_node (hasId "sr-announcement") (doc st)))
      as [n Hn] by (by apply first_node_exists).
    destruct (first_node_is_Elem _ _ _ Hn) as (a & kids & ->).
    rewrite Hn. simpl. rewrite Hset. eauto.
  - simpl in Hpage. unfold sr_announcement.
    rewrite first_node_append by (done || by apply first_node_None).
    rewrite Hpage. simpl. rewrite Hset. eauto.
Qed.

Lemma live_region_holds_latest_announcement_witness :
  let st1 := announceToScreenReader (VStr "Content loaded successfully")
               (sample_page false) in
  let st2 := announceToScreenReader (VStr "Search updated") st1 in
  (exists a,
     first_node (hasId "sr-announcement") (doc st2)
       = Some (Elem a [Text (VStr "Search updated")])) /\
  length (select (hasId "sr-announcement") (doc st2)) = 1%nat.
Proof.
  intros st1 st2. split; [|reflexivity].
  apply (live_region_holds_latest_announcement (VStr "Search updated") st1);
    [discriminate|reflexivity].
Defined.

(** ** Field errors, once more *)









(** ** The cache over time *)

Lemma ajaxCache_on_mouseenter el st :
  ajaxCache (on_mouseenter el st) = ajaxCache st.
Proof. unfold on_mouseenter. by destruct (negb _). Qed.

Lemma ajaxCache_on_click el st : ajaxCache (on_click el st) = ajaxCache st.
Proof.
  unfold on_click. destruct (el_ajax_load el || is_json el); [|done].
  destruct (truthy (cached (el_url el) st)); [|done].
  destruct (is_json el).
  - apply handled_cache, handled_handleJsonResponse.
  - apply handled_cache, handled_loadAjaxContent.
Qed.

Lemma ajaxCache_complete r o st url v :
  ajaxCache st !! url = Some v ->
  is_Some (ajaxCache (complete r o st) !! url).
Proof.
  intros Hv. destruct (complete_shape r o st) as (st0 & _ & _ & _ & Hc & H).
  rewrite (handled_cache _ _ H). change (ajaxCache (finish_loading _ st0))
    with (ajaxCache st0).
  destruct Hc as [->|(el & data & _ & _ & ->)]; [eauto|].
  destruct (decide (el_url el = url)) as [->|Hne].
  - rewrite lookup_insert_eq. eauto.
  - rewrite lookup_insert_ne by done. eauto.
Qed.

(** X13. The response cache only grows.  Over any sequence of hovers,
    clicks, JSON requests (with the dispatcher's own [beforeSend]) and
    completions, in any interleaving, a URL that has a cache entry keeps
    one: nothing is ever evicted or invalidated. *)
Theorem cache_entries_are_never_removed w actions url :
  Forall (fun a => keeps_default_hook a = true) actions ->
  is_Some (ajaxCache (current w) !! url) ->
  is_Some (ajaxCache (current (run w actions)) !! url).
Proof.
  intros Hactions. revert w. unfold run.
  induction Hactions as [|a actions Ha _ IH]; intros w Hurl; [done|].
  simpl. apply IH. clear IH. destruct a as [el|el|u data method o|i o]; simpl.
  - by rewrite ajaxCache_on_mouseenter.
  - by rewrite ajaxCache_on_click.
  - simpl in Ha. unfold sendJsonRequest, ajax, extend. simpl.
    by destruct (o_beforeSend o).
  - destruct (pending w !! i) as [r|]; [|done]. simpl.
    destruct Hurl as [v Hv]. by apply (ajaxCache_complete r o _ url v).
Qed.

(** The About page is fetched; later a form is submitted and fails, and the
    link is hovered and clicked again. *)
Lemma cache_entries_are_never_removed_witness :
  let w := run {| current := sample_page false; pending := [] |}
             [ MouseEnter about_link;
               Complete 0 (Success (VStr "<h1>About</h1>")) ] in
  is_Some (ajaxCache (current
             (run w [ SendJson "/donate/" (VObj []) "POST" form_options;
                      Complete 0 (Failure {| status := 500; responseText := "" |});
                      MouseEnter about_link; Click about_link ]))
           !! "/about/").
Proof.
  intros w.
  apply (cache_entries_are_never_removed w _ "/about/").
  - repeat constructor.
  - by exists (VStr "<h1>About</h1>").
Defined.

(** X14. Prefetching pays off.  Once a hover fetch of a link has succeeded
    with a truthy body, a click on the link sends no request and works on
    exactly the prefetched body: it loads it into the page, or, for a JSON
    link, hands it to the router a second time. *)
Theorem click_uses_the_prefetched_body el data st :
  truthy data = true ->
  el_ajax_load el || is_json el = true ->
  let st1 := complete (Prefetch el) (Success data) st in
  cached (el_url el) st1 = data /\
  requests_sent (on_click el st1) = requests_sent st1 /\
  on_click el st1 =
    if is_json el
    then fst (handleJsonResponse data (json_handler el) no_options st1)
    else loadAjaxContent data st1.
Proof.
  intros Hdata Hel. cbv zeta.
  assert (cached (el_url el) (complete (Prefetch el) (Success data) st) = data)
    as Hcached.
  { unfold cached. simpl. unfold prefetch_success.
    assert (ajaxCache (if is_json el
                       then fst (handleJsonResponse data (json_handler el) no_options
                                   (finish_loading "ajax-success"
                                      (cache_put (el_url el) data st)))
                       else finish_loading "ajax-success"
                              (cache_put (el_url el) data st))
            = <[el_url el := data]> (ajaxCache st)) as ->.
    { destruct (is_json el); [|done].
      by rewrite (handled_cache _ _ (handled_handleJsonResponse _ _ _ _)). }
    by rewrite lookup_insert_eq. }
  split; [done|].
  assert (on_click el (complete (Prefetch el) (Success data) st) =
          if is_json el
          then fst (handleJsonResponse data (json_handler el) no_options
                      (complete (Prefetch el) (Success data) st))
          else loadAjaxContent data (complete (Prefetch el) (Success data) st))
    as Hclick.
  { unfold on_click. by rewrite Hel, Hcached, Hdata. }
  split; [|done]. rewrite Hclick. destruct (is_json el).
  - apply handled_requests_sent, handled_handleJsonResponse.
  - apply handled_requests_sent, handled_loadAjaxContent.
Qed.

Lemma click_uses_the_prefetched_body_witness :
  let st1 := complete (Prefetch about_link) (Success (VStr "<h1>About</h1>"))
               (on_mouseenter about_link (sample_page true)) in
  requests_sent (on_click about_link st1) = 1%nat /\
  contents (hasClass "ajax-container") (doc (on_click about_link st1))
    = [ [Html (HValue (VStr "<h1>About</h1>"))] ].
Proof.
  intros st1. subst st1.
  destruct (click_uses_the_prefetched_body about_link (VStr "<h1>About</h1>")
              (on_mouseenter about_link (sample_page true)))
    as (_ & Hsent & Hclick); [reflexivity..|].
  split.
  - etransitivity; [exact Hsent|]. reflexivity.
  - rewrite Hclick. reflexivity.
Defined.

(** ** debounce *)

Lemma debounce_run_app {A} immediate (e1 e2 : list (debounce_event A)) t :
  debounce_run immediate (e1 ++ e2) t =
    let '(t1, i1) := debounce_run immediate e1 t in
    let '(t2, i2) := debounce_run immediate e2 t1 in
    (t2, i1 ++ i2).
Proof.
  revert t. induction e1 as [|e e1 IH]; intros t; simpl.
  - by destruct (debounce_run immediate e2 t).
  - destruct (match e with
              | Called args => debounce_call immediate args t
              | TimerFired => debounce_fire immediate t
              end) as [t' now].
    rewrite IH. destruct (debounce_run immediate e1 t') as [t1 i1].
    destruct (debounce_run immediate e2 t1) as [t2 i2].
    by rewrite app_assoc.
Qed.

Lemma last_cons_default {A} (a d : A) l : List.last (a :: l) d = List.last l a.
Proof.
  revert a d. induction l as [|b l IH]; intros a d; [done|].
  change (List.last (a :: b :: l) d) with (List.last (b :: l) d).
  by rewrite !IH.
Qed.

Lemma debounce_trailing_calls {A} (a : A) l t :
  debounce_run false (map Called (a :: l)) t = (Some (List.last l a), []).
Proof.
  revert a t. induction l as [|b l IH]; intros a t; [done|].
  change (map Called (a :: b :: l)) with (Called a :: map Called (b :: l)).
  change (debounce_run false (Called a :: map Called (b :: l)) t)
    with (let '(final, later) := debounce_run false (map Called (b :: l)) (Some a)
          in (final, [] ++ later)).
  rewrite IH. by rewrite (last_cons_default b a).
Qed.

Lemma debounce_pending_calls {A} (a : A) l :
  debounce_run true (map Called l) (Some a) = (Some (List.last l a), []).
Proof.
  revert a. induction l as [|b l IH]; intros a; [done|].
  change (debounce_run true (map Called (b :: l)) (Some a))
    with (let '(final, later) := debounce_run true (map Called l) (Some b)
          in (final, [] ++ later)).
  rewrite IH. by rewrite (last_cons_default b a).
Qed.

(** X15. What [debounce] does with a burst.  For a run of calls with no
    timer expiry in between, followed by the expiry of the timer: without
    [immediate] the function is invoked exactly once, after the burst, with
    the arguments of the last call, whatever timer was pending before; with
    [immediate] and no timer pending it is invoked exactly once, at the
    first call and with its arguments; with [immediate] and a timer pending
    it is not invoked at all.  In every case no timer is left pending. *)
Theorem debounce_burst {A} (a : A) (l : list A) (t : option A) :
  debounce_run false (map Called (a :: l) ++ [TimerFired]) t
    = (None, [List.last l a]) /\
  debounce_run true (map Called (a :: l) ++ [TimerFired]) None = (None, [a]) /\
  debounce_run true (map Called l ++ [TimerFired]) (Some a) = (None, []).
Proof.
  split; [|split].
  - by rewrite debounce_run_app, debounce_trailing_calls.
  - change (map Called (a :: l) ++ [TimerFired])
      with (Called a :: (map Called l ++ [TimerFired])).
    change (debounce_run true (Called a :: (map Called l ++ [TimerFired])) None)
      with (let '(final, later) :=
              debounce_run true (map Called l ++ [TimerFired]) (Some a)
            in (final, [a] ++ later)).
    by rewrite debounce_run_app, debounce_pending_calls.
  - by rewrite debounce_run_app, debounce_pending_calls.
Qed.

(** ** Scroll reveals *)

Lemma amap_amap f g l : amap f (amap g l) = amap (fun a => f (g a)) l.
Proof.
  unfold amap. rewrite map_map. apply map_ext_Forall, Forall_forall. intros n _.
  induction n as [a kids IH| |] using node_ind'; [|done..].
  simpl. f_equal. rewrite map_map. by apply map_ext_Forall.
Qed.

Lemma amap_ext_elems f g l :
  all_elems (fun a => f a = g a) l -> amap f l = amap g l.
Proof.
  assert (forall n, Forall (fun a => f a = g a) (elems_node n) ->
                    amap_node f n = amap_node g n) as Hnode.
  { intros n. induction n as [a kids IH| |] using node_ind'; [|done..].
    rewrite all_elems_Elem. intros [Ha Hk]. simpl. rewrite Ha. f_equal.
    induction IH as [|k kids Hk1 _ IHk]; [done|].
    apply all_elems_cons in Hk. destruct Hk as [Hk0 Hks].
    simpl. f_equal; auto. }
  unfold amap. induction l as [|n l IHl]; [done|].
  rewrite all_elems_cons. intros [Hn Hl]. simpl. f_equal; auto.
Qed.

Lemma addClass_idemp c a : addClass c (addClass c a) = addClass c a.
Proof.
  unfold addClass. simpl. f_equal. by rewrite (assoc_L (∪)), union_idemp_L.
Qed.

(** X16. Scroll reveals accumulate.  The handler of the scroll fallback,
    run at a viewport whose bottom edge is at least as low as at an earlier
    run, leaves the document as if only the later run had happened: what an
    earlier scroll revealed stays revealed, and nothing is revealed twice or
    hidden again. *)
Theorem later_scroll_absorbs_earlier s h s' h' d :
  s + h <= s' + h' ->
  reveal_on_scroll s' h' (reveal_on_scroll s h d) = reveal_on_scroll s' h' d.
Proof.
  intros Hle. unfold reveal_on_scroll. rewrite amap_amap.
  apply amap_ext_elems, Forall_forall. intros a _. unfold on.
  destruct (hasClass "fade-in" a) eqn:Hfade; simpl; [|by rewrite Hfade].
  destruct (bool_decide (top a + 100 < s + h)) eqn:Hin; simpl.
  - apply bool_decide_eq_true in Hin.
    assert (hasClass "fade-in" (addClass "visible" a) = true) as ->.
    { apply hasClass_true, classes_addClass. right. by apply hasClass_true. }
    change (top (addClass "visible" a)) with (top a).
    rewrite !(bool_decide_eq_true_2 (top a + 100 < s' + h')) by lia.
    simpl. apply addClass_idemp.
  - by rewrite Hfade.
Qed.

Lemma later_scroll_absorbs_earlier_witness :
  reveal_on_scroll 400 600 (reveal_on_scroll 0 600 landing_doc)
  = reveal_on_scroll 400 600 landing_doc.
Proof. apply later_scroll_absorbs_earlier. lia. Defined.

(** X17. Reduced motion shows at once what scrolling would reveal in the
    end.  With the reduced-motion preference [initScrollAnimations] leaves
    the document exactly as the scroll handler does at a viewport below
    every [.fade-in] element; without the preference it reveals nothing
    by itself. *)
Theorem reduced_motion_reveals_everything s h st :
  all_elems (fun a => hasClass "fade-in" a = true -> top a + 100 < s + h) (doc st) ->
  doc (initScrollAnimations st) =
    if prefersReducedMotion (env st)
    then reveal_on_scroll s h (doc st)
    else doc st.
Proof.
  intros Hview. unfold initScrollAnimations.
  destruct (prefersReducedMotion (env st)); [|done].
  unfold reveal_on_scroll. simpl. apply amap_ext_elems.
  eapply Forall_impl; [exact Hview|]. intros a Ha. unfold on.
  destruct (hasClass "fade-in" a) eqn:Hfade; [|done].
  by rewrite bool_decide_eq_true_2 by (by apply Ha).
Qed.

Lemma reduced_motion_reveals_everything_witness :
  doc (initScrollAnimations (landing_page true))
  = reveal_on_scroll 1500 600 landing_doc.
Proof.
  apply (reduced_motion_reveals_everything 1500 600 (landing_page true)).
  unfold all_elems. simpl.
  repeat (apply Forall_cons_2); try apply Forall_nil_2;
    intros Hfade; first [by vm_compute in Hfade | simpl; lia].
Defined.
